(** * youapp-api: the authentication service, its message gateway and the
      HTTP endpoints that consume it.

    Shallow embedding of
      - apps/auth/src/auth.service.ts     (AuthService)
      - apps/auth/src/auth.controller.ts  (AuthController, the RabbitMQ handlers)
      - apps/youapp-api/src/app.controller.ts (AppController.login / refreshToken)

    Asynchronous methods are functions in a small monad [M]: a computation
    reads and updates the state of everything outside the auth process (the
    user directory behind RabbitMQ, the clock, the random source), either
    returns a value or throws, and emits the list of interactions it made. *)

From Stdlib Require Import String Ascii List ZArith Bool Lia.
Import ListNotations.
Open Scope string_scope.

(** ** Data carried between the services *)

(** A thrown JavaScript value; only its text matters here. *)
Definition error := string.

(** [T | null | undefined] as seen by a JavaScript caller. *)
Inductive maybe (A : Type) : Type :=
| JsUndefined
| JsNull
| JsValue (a : A).
Arguments JsUndefined {A}.
Arguments JsNull {A}.
Arguments JsValue {A} a.

(** [!x] for a value that is an object, [null] or [undefined]. *)
Definition js_not {A} (x : maybe A) : bool :=
  match x with
  | JsValue _ => false
  | JsNull | JsUndefined => true
  end.

(** [x !== null]. *)
Definition strict_neq_null {A} (x : maybe A) : bool :=
  match x with
  | JsNull => false
  | JsUndefined | JsValue _ => true
  end.

(** interfaces/jwtToken.interface.ts *)
Record Jwt := mkJwt { accessToken : string; refreshToken : string }.
Record JwtPayload := mkJwtPayload { sub : string }.

(** Modelled from the spec: the [User] interface of libs/shared is not among
    the sources.  The spec gives the credential record as identity (opaque
    id), username, email and password hash; the service reads [_id] and
    [password]. *)
Record User := mkUser {
  _id : string;
  username : string;
  email : string;
  u_password : string
}.

(** Modelled from the spec: [CreateUserDto] of libs/shared is not among the
    sources.  The spec gives the registration input as username, email and
    password; the service reads [email] and [username]. *)
Record CreateUserDto := mkCreateUserDto {
  cu_username : string;
  cu_email : string;
  cu_password : string
}.

(** The payload of 'find-user-by-email-or-username', as register and
    validateUser build it. *)
Record EmailAndUsernameDto := mkEmailAndUsernameDto {
  q_email : string;
  q_username : string
}.

(** The login input; the service reads [usernameOrEmail] and [password]. *)
Record LoginUserDto := mkLoginUserDto {
  usernameOrEmail : string;
  lg_password : string
}.

(** The payload of 'update-password', as validateUser builds it. *)
Record UpdatePassword := mkUpdatePassword {
  userId : string;
  up_password : string
}.

(** The business error register returns: [{statusCode, error}]. *)
Record ErrorData := mkErrorData { statusCode : Z; error_text : string }.

(** [ErrorData | boolean], the result of register. *)
Inductive register_result : Type :=
| RegError (e : ErrorData)
| RegBool (b : bool).

(** Options handed to [jwtService.signAsync] / [verifyAsync];
    [process.env.X] is [undefined] when the variable is not set. *)
Record JwtSignOptions := mkSignOptions {
  expiresIn : string;
  sign_secret : option string
}.
Record JwtVerifyOptions := mkVerifyOptions { verify_secret : option string }.

(** ** Outcomes and the interaction log *)

Inductive outcome (A : Type) : Type :=
| Returned (a : A)
| Thrown (e : error).
Arguments Returned {A} a.
Arguments Thrown {A} e.

(** One entry per interaction with something outside the method bodies,
    with the answer that came back. *)
Inductive event : Type :=
| EvFindUser (q : EmailAndUsernameDto) (r : outcome (option User))
| EvCreateUser (dto : CreateUserDto) (r : outcome (option string))
| EvIsUseridExist (id : string) (r : outcome bool)
| EvUpdatePassword (u : UpdatePassword) (r : outcome bool)
| EvScryptVerify (plaintext digest : string) (r : bool)
| EvScryptHash (plaintext digest : string)
| EvSign (payload : JwtPayload) (opts : JwtSignOptions) (r : outcome string)
| EvVerify (token : string) (opts : JwtVerifyOptions) (r : outcome JwtPayload)
| EvConsoleLog (e : error)
| EvAck
| EvNack.

(** Which of the two promises given to [Promise.all] settles first. *)
Inductive settle_order : Type := LeftFirst | RightFirst.

(** Everything the auth process reaches but does not implement: the user
    directory (the 'USER_SERVICE' client), the JWT library, the random source
    and key derivation used for password digests, the process environment and
    the scheduler of pending promises.  [W] is the state of that outside
    world. *)
Record Deps (W : Type) := mkDeps {
  dir_find_user : EmailAndUsernameDto -> W -> outcome (option User) * W;
  dir_create_user : CreateUserDto -> W -> outcome (option string) * W;
  dir_is_userid_exist : string -> W -> outcome bool * W;
  dir_update_password : UpdatePassword -> W -> outcome bool * W;
  jwt_sign : JwtPayload -> JwtSignOptions -> W -> outcome string * W;
  jwt_verify : string -> JwtVerifyOptions -> W -> outcome JwtPayload * W;
  random_salt : W -> string * W;
  kdf : string -> string -> string;
  encode_digest : string -> string -> string;
  decode_digest : string -> option (string * string);
  process_env : string -> option string;
  scheduler : W -> settle_order
}.
Arguments dir_find_user {W} d _ _.
Arguments dir_create_user {W} d _ _.
Arguments dir_is_userid_exist {W} d _ _.
Arguments dir_update_password {W} d _ _.
Arguments jwt_sign {W} d _ _ _.
Arguments jwt_verify {W} d _ _ _.
Arguments random_salt {W} d _.
Arguments kdf {W} d _ _.
Arguments encode_digest {W} d _ _.
Arguments decode_digest {W} d _.
Arguments process_env {W} d _.
Arguments scheduler {W} d _.

(** ** The monad of asynchronous methods *)

Record Run (W A : Type) : Type := mkRun {
  res : outcome A;
  world : W;
  log : list event
}.
Arguments mkRun {W A} res world log.
Arguments res {W A} r.
Arguments world {W A} r.
Arguments log {W A} r.

Definition M (W A : Type) : Type := W -> Run W A.

Definition ret {W A} (a : A) : M W A :=
  fun w => mkRun (Returned a) w [].

Definition throw {W A} (e : error) : M W A :=
  fun w => mkRun (Thrown e) w [].

Definition bind {W A B} (m : M W A) (f : A -> M W B) : M W B :=
  fun w =>
    let r := m w in
    match res r with
    | Returned a =>
        let r' := f a (world r) in
        mkRun (res r') (world r') (log r ++ log r')
    | Thrown e => mkRun (Thrown e) (world r) (log r)
    end.

(** [try { m } catch (error) { h error }] *)
Definition try_catch {W A} (m : M W A) (h : error -> M W A) : M W A :=
  fun w =>
    let r := m w in
    match res r with
    | Returned a => r
    | Thrown e =>
        let r' := h e (world r) in
        mkRun (res r') (world r') (log r ++ log r')
    end.

(** A single interaction: ask the outside world, record question and answer. *)
Definition interact {W A} (ask : W -> outcome A * W) (ev : outcome A -> event)
  : M W A :=
  fun w => let '(o, w') := ask w in mkRun o w' [ev o].

Definition emit {W} (ev : event) : M W unit :=
  fun w => mkRun (Returned tt) w [ev].

(** [Promise.all([m1, m2])]: both computations are started whatever happens to
    the other one; the scheduler decides whose effects land first; the result
    is the pair of values, or the rejection that came first. *)
Definition promise_all2 {W A B} (D : Deps W) (m1 : M W A) (m2 : M W B)
  : M W (A * B) :=
  fun w =>
    match scheduler D w with
    | LeftFirst =>
        let r1 := m1 w in
        let r2 := m2 (world r1) in
        mkRun (match res r1, res r2 with
               | Returned a, Returned b => Returned (a, b)
               | Thrown e, _ => Thrown e
               | Returned _, Thrown e => Thrown e
               end) (world r2) (log r1 ++ log r2)
    | RightFirst =>
        let r2 := m2 w in
        let r1 := m1 (world r2) in
        mkRun (match res r2, res r1 with
               | Returned b, Returned a => Returned (a, b)
               | Thrown e, _ => Thrown e
               | Returned _, Thrown e => Thrown e
               end) (world r1) (log r2 ++ log r1)
    end.

Declare Scope auth_scope.
Delimit Scope auth_scope with auth.
Notation "x <- m ;; k" := (bind m (fun x => k))
  (at level 61, m at next level, right associativity) : auth_scope.
Notation "m ;;; k" := (bind m (fun _ => k))
  (at level 61, right associativity) : auth_scope.
Open Scope auth_scope.

(** ** String helpers of the JavaScript runtime *)

(** [s.split(' ')] *)
Fixpoint split_space (s : string) : list string :=
  match s with
  | EmptyString => [EmptyString]
  | String c rest =>
      if Ascii.eqb c " "%char then EmptyString :: split_space rest
      else match split_space rest with
           | [] => [String c EmptyString]
           | h :: t => String c h :: t
           end
  end.

(** [s.startsWith(p)] *)
Definition startsWith (s p : string) : bool := String.prefix p s.

(** [!s] for a string-or-null: [null] and the empty string are falsy. *)
Definition js_not_string (s : option string) : bool :=
  match s with
  | None => true
  | Some EmptyString => true
  | Some (String _ _) => false
  end.

Definition is_null {A} (x : option A) : bool :=
  match x with None => true | Some _ => false end.

(** ** Token lifetimes

    [expiresIn] is a time span in the notation of the JWT library: a decimal
    count followed by a unit letter.  [timespan_seconds] gives its length. *)

Definition digit_value (c : ascii) : option Z :=
  let n := Z.of_nat (nat_of_ascii c) in
  if (48 <=? n)%Z && (n <=? 57)%Z then Some (n - 48)%Z else None.




(** ** libs/shared: password hashing and the request envelope *)

Module Scrypt.
Section WithDeps.
Context {W : Type} (D : Deps W).

(** Modelled from the spec: [Scrypt.hashPassword] of libs/shared is not among
    the sources.  The spec gives [hash(plaintext) -> digest] as a salted
    one-way transform whose output encodes the salt together with the hash,
    and lists it as an operation that never fails: a fresh salt is drawn,
    the key is derived, and both are encoded in the digest. *)
Definition fresh_digest (plaintext : string) (w : W) : string * W :=
  let '(salt, w') := random_salt D w in
  (encode_digest D salt (kdf D plaintext salt), w').

(** Modelled from the spec: [Scrypt.hashPassword], see [fresh_digest]; it
    returns the digest and does not throw. *)
Definition hashPassword (plaintext : string) : M W string :=
  fun w =>
    let '(digest, w') := fresh_digest plaintext w in
    mkRun (Returned digest) w' [EvScryptHash plaintext digest].

(** Modelled from the spec: [Scrypt.verifyPassword] of libs/shared is not
    among the sources.  The spec gives [verify(plaintext, digest) -> bool]:
    it recomputes with the salt embedded in the digest and compares; a
    malformed digest or a mismatch gives [false], it does not throw. *)
Definition matches (plaintext digest : string) : bool :=
  match decode_digest D digest with
  | Some (salt, h) => String.eqb (kdf D plaintext salt) h
  | None => false
  end.

(** Modelled from the spec: [Scrypt.verifyPassword], see [matches]; it
    returns the comparison and does not throw. *)
Definition verifyPassword (plaintext digest : string) : M W bool :=
  let matched := matches plaintext digest in
  emit (EvScryptVerify plaintext digest matched) ;;; ret matched.
End WithDeps.
End Scrypt.

(** The inbound RabbitMQ message, reduced to the payload it carries. *)
Record RmqContext (A : Type) := mkRmqContext { message_data : A }.
Arguments mkRmqContext {A} message_data.
Arguments message_data {A} r.

Record Extracted (W A : Type) := mkExtracted {
  data : A;
  ack : M W unit;
  nack : M W unit
}.
Arguments mkExtracted {W A} data ack nack.
Arguments data {W A} e.
Arguments ack {W A} e.
Arguments nack {W A} e.

Module SharedService.
(** Modelled from the spec: [SharedService.extractData] of libs/shared is not
    among the sources.  The spec gives
    [extract<T>(context) -> {data: T, ack(), nack()}]: the payload of the
    inbound request and one pair of terminal callbacks, acknowledge and
    reject, acting on the channel of that message. *)
Definition extractData {W A} (context : RmqContext A) : Extracted W A :=
  mkExtracted (message_data context) (emit EvAck) (emit EvNack).
End SharedService.

(** ** apps/auth/src/auth.service.ts *)

Module AuthService.
Section WithDeps.
Context {W : Type} (D : Deps W).

(** [firstValueFrom(this.userService.send(pattern, payload))], one
    definition per message pattern. *)
Definition send_find_user (q : EmailAndUsernameDto) : M W (option User) :=
  interact (dir_find_user D q) (EvFindUser q).
Definition send_create_user (dto : CreateUserDto) : M W (option string) :=
  interact (dir_create_user D dto) (EvCreateUser dto).
Definition send_is_userid_exist (id : string) : M W bool :=
  interact (dir_is_userid_exist D id) (EvIsUseridExist id).
Definition send_update_password (u : UpdatePassword) : M W bool :=
  interact (dir_update_password D u) (EvUpdatePassword u).

(** [this.jwtService.signAsync] and [verifyAsync]. *)
Definition signAsync (payload : JwtPayload) (opts : JwtSignOptions)
  : M W string :=
  interact (jwt_sign D payload opts) (EvSign payload opts).
Definition verifyAsync (token : string) (opts : JwtVerifyOptions)
  : M W JwtPayload :=
  interact (jwt_verify D token opts) (EvVerify token opts).

Definition JWT_ACCESS_SECRET : string := "JWT_ACCESS_SECRET".
Definition JWT_REFRESH_SECRET : string := "JWT_REFRESH_SECRET".

Definition access_sign_options : JwtSignOptions :=
  mkSignOptions "3m" (process_env D JWT_ACCESS_SECRET).
Definition refresh_sign_options : JwtSignOptions :=
  mkSignOptions "7d" (process_env D JWT_REFRESH_SECRET).

Definition register (createUserDto : CreateUserDto) : M W register_result :=
  user <- send_find_user
            (mkEmailAndUsernameDto (cu_email createUserDto)
                                   (cu_username createUserDto)) ;;
  if negb (is_null user) then
    ret (RegError (mkErrorData 2002 "User already exists"))
  else
    userId <- send_create_user createUserDto ;;
    if js_not_string userId || is_null userId then
      ret (RegError (mkErrorData 2003 "User creation failed"))
    else ret (RegBool true).

Definition generateJWT (payload : JwtPayload) : M W Jwt :=
  tokens <- promise_all2 D
              (signAsync payload access_sign_options)
              (signAsync payload refresh_sign_options) ;;
  ret (mkJwt (fst tokens) (snd tokens)).

Definition hashPassword (password : string) : M W string :=
  Scrypt.hashPassword D password.

Definition validateUser (emailOrUsername password : string)
  : M W (option User) :=
  user <- send_find_user
            (mkEmailAndUsernameDto emailOrUsername emailOrUsername) ;;
  match user with
  | None => ret None
  | Some u =>
      isPasswordMatched <- Scrypt.verifyPassword D password
                             (u_password u) ;;
      if isPasswordMatched : bool then
        newPassword <- hashPassword password ;;
        result <- send_update_password
                    (mkUpdatePassword (_id u) newPassword) ;;
        ret (if result : bool then Some u else None)
      else ret None
  end.

Definition login (loginUserDto : LoginUserDto) : M W (maybe Jwt) :=
  user <- validateUser (usernameOrEmail loginUserDto)
                       (lg_password loginUserDto) ;;
  match user with
  | None => ret JsUndefined
  | Some u =>
      let payload := mkJwtPayload (_id u) in
      jwt <- generateJWT payload ;;
      ret (JsValue jwt)
  end.

(** The part of [refresh] that runs inside its [try] block.  The block ends
    with [return this.generateJWT(...)]: the promise is handed back without
    being awaited, so the block itself completes with the verified subject
    and a failure of the issuance is not seen by the [catch] clause. *)
Definition refresh_guarded (refreshToken : string) : M W (option JwtPayload) :=
  try_catch
    (if startsWith refreshToken "Bearer " then
       match nth_error (split_space refreshToken) 1 with
       | Some token =>
           payload <- verifyAsync token
                        (mkVerifyOptions (process_env D JWT_REFRESH_SECRET)) ;;
           ret (Some (mkJwtPayload (sub payload)))
       | None => throw "jwt must be provided"
       end
     else ret None)
    (fun error => emit (EvConsoleLog error) ;;; ret None).

Definition refresh (refreshToken : string) : M W (maybe Jwt) :=
  verified <- refresh_guarded refreshToken ;;
  match verified with
  | None => ret JsUndefined
  | Some payload => jwt <- generateJWT payload ;; ret (JsValue jwt)
  end.

Definition validateJwt (jwt : string) : M W (maybe JwtPayload) :=
  try_catch
    (payload <- verifyAsync jwt
                  (mkVerifyOptions (process_env D JWT_ACCESS_SECRET)) ;;
     isUserExist <- send_is_userid_exist (sub payload) ;;
     if negb isUserExist then ret JsUndefined else ret (JsValue payload))
    (fun _ => ret JsUndefined).
End WithDeps.
End AuthService.

(** ** apps/auth/src/auth.controller.ts: the message handlers *)

Module AuthController.
Section WithDeps.
Context {W : Type} (D : Deps W).

Definition register (context : RmqContext CreateUserDto)
  : M W register_result :=
  let extractedData := SharedService.extractData context in
  try_catch
    (result <- AuthService.register D (data extractedData) ;;
     ack extractedData ;;;
     ret result)
    (fun error =>
       emit (EvConsoleLog error) ;;;
       nack extractedData ;;;
       ret (RegBool false)).

Definition login (context : RmqContext LoginUserDto) : M W (maybe Jwt) :=
  let extractedData := SharedService.extractData context in
  try_catch
    (result <- AuthService.login D (data extractedData) ;;
     ack extractedData ;;;
     ret result)
    (fun error =>
       emit (EvConsoleLog error) ;;;
       nack extractedData ;;;
       ret JsNull).

Definition refresh (context : RmqContext string) : M W (maybe Jwt) :=
  let extractedData := SharedService.extractData context in
  try_catch
    (result <- AuthService.refresh D (data extractedData) ;;
     ack extractedData ;;;
     ret result)
    (fun error =>
       emit (EvConsoleLog error) ;;;
       nack extractedData ;;;
       ret JsNull).

Definition hashPassword (context : RmqContext string) : M W (maybe string) :=
  let extractedData := SharedService.extractData context in
  try_catch
    (result <- AuthService.hashPassword D (data extractedData) ;;
     ack extractedData ;;;
     ret (JsValue result))
    (fun error =>
       emit (EvConsoleLog error) ;;;
       nack extractedData ;;;
       ret JsNull).

Definition validate (context : RmqContext string)
  : M W (maybe JwtPayload) :=
  let extractedData := SharedService.extractData context in
  try_catch
    (result <- AuthService.validateJwt D (data extractedData) ;;
     ack extractedData ;;;
     ret result)
    (fun error =>
       emit (EvConsoleLog error) ;;;
       nack extractedData ;;;
       ret JsNull).
End WithDeps.
End AuthController.

(** ** apps/youapp-api/src/app.controller.ts: the two endpoints that consume
       token pairs *)

Module AppController.
Record ServerResponse := mkServerResponse {
  isOk : bool;
  message : option string;
  errorCode : option Z;
  response_data : maybe Jwt
}.

Record HttpResponse := mkHttpResponse {
  status : Z;
  body : ServerResponse
}.

(** [jwt] is what [firstValueFrom(this.authService.send('login', ...))]
    delivered. *)
Definition login (jwt : maybe Jwt) : HttpResponse :=
  let isJwtValid := strict_neq_null jwt in
  mkHttpResponse
    (if js_not jwt then 400 else 200)
    (mkServerResponse
       isJwtValid
       (if negb isJwtValid then Some "Invalid username, email or password"
        else None)
       (if negb isJwtValid then Some 2004%Z else None)
       (if negb isJwtValid then JsUndefined else jwt)).

(** [jwt] is what [firstValueFrom(this.authService.send('refresh', ...))]
    delivered. *)
Definition refreshToken (jwt : maybe Jwt) : HttpResponse :=
  let isJwtValid := strict_neq_null jwt in
  mkHttpResponse
    (if js_not jwt then 401 else 200)
    (mkServerResponse
       isJwtValid
       (if negb isJwtValid then Some "Invalid refresh token" else None)
       (if negb isJwtValid then Some 2005%Z else None)
       (if negb isJwtValid then JsUndefined else jwt)).
End AppController.

(** ** A concrete outside world

    An in-memory directory, a transparent token format and a counter-driven
    salt source.  It is one possible instance of [Deps], used to run the
    methods on concrete requests. *)

Module Demo.
Record World := mkWorld {
  users : list User;
  salts_drawn : nat;
  directory_up : bool;
  directory_writable : bool
}.

(** Cut a string at the first occurrence of a character. *)
Fixpoint cut_at (c : ascii) (s : string) : option (string * string) :=
  match s with
  | EmptyString => None
  | String x rest =>
      if Ascii.eqb x c then Some (EmptyString, rest)
      else match cut_at c rest with
           | Some (l, r) => Some (String x l, r)
           | None => None
           end
  end.

(** Digests are written [salt$salt/plaintext]. *)
Definition derive (plaintext salt : string) : string :=
  salt ++ "/" ++ plaintext.

Definition encode (salt h : string) : string := salt ++ "$" ++ h.
Definition decode (digest : string) : option (string * string) :=
  cut_at "$" digest.

Definition matches (q : EmailAndUsernameDto) (u : User) : bool :=
  String.eqb (email u) (q_email q) || String.eqb (username u) (q_username q).

Definition guarded {A} (w : World) (a : A) : outcome A * World :=
  if directory_up w then (Returned a, w)
  else (Thrown "directory unreachable", w).

Definition find_user (q : EmailAndUsernameDto) (w : World)
  : outcome (option User) * World :=
  guarded w (find (matches q) (users w)).

Definition create_user (dto : CreateUserDto) (w : World)
  : outcome (option string) * World :=
  if directory_up w then
    if directory_writable w then
      let id := "id-" ++ cu_username dto in
      (Returned (Some id),
       mkWorld (users w ++ [mkUser id (cu_username dto) (cu_email dto)
                                   (encode "s0" (derive (cu_password dto) "s0"))])
               (salts_drawn w) true true)
    else (Returned None, w)
  else (Thrown "directory unreachable", w).

Definition is_userid_exist (id : string) (w : World)
  : outcome bool * World :=
  guarded w (existsb (fun u => String.eqb (_id u) id) (users w)).

Definition set_password (u : UpdatePassword) (x : User) : User :=
  if String.eqb (_id x) (userId u)
  then mkUser (_id x) (username x) (email x) (up_password u)
  else x.

Definition update_password (u : UpdatePassword) (w : World)
  : outcome bool * World :=
  if directory_up w then
    if directory_writable w
         && existsb (fun x => String.eqb (_id x) (userId u)) (users w)
    then (Returned true,
          mkWorld (map (set_password u) (users w)) (salts_drawn w) true true)
    else (Returned false, w)
  else (Thrown "directory unreachable", w).

(** Tokens are written [secret:lifetime:subject]. *)
Definition sign (payload : JwtPayload) (opts : JwtSignOptions) (w : World)
  : outcome string * World :=
  match sign_secret opts with
  | Some k => (Returned (k ++ ":" ++ expiresIn opts ++ ":" ++ sub payload), w)
  | None => (Thrown "secretOrPrivateKey must have a value", w)
  end.

Definition verify (token : string) (opts : JwtVerifyOptions) (w : World)
  : outcome JwtPayload * World :=
  match verify_secret opts, cut_at ":" token with
  | Some k, Some (k', rest) =>
      if String.eqb k k' then
        match cut_at ":" rest with
        | Some (span, subject) =>
            if String.eqb span "0s" then (Thrown "jwt expired", w)
            else (Returned (mkJwtPayload subject), w)
        | None => (Thrown "jwt malformed", w)
        end
      else (Thrown "invalid signature", w)
  | _, _ => (Thrown "jwt malformed", w)
  end.

Fixpoint salt_of (n : nat) : string :=
  match n with
  | O => "s"
  | S k => String "x" (salt_of k)
  end.

Definition draw_salt (w : World) : string * World :=
  (salt_of (salts_drawn w),
   mkWorld (users w) (S (salts_drawn w)) (directory_up w)
           (directory_writable w)).

Definition env (name : string) : option string :=
  if String.eqb name "JWT_ACCESS_SECRET" then Some "a-secret"
  else if String.eqb name "JWT_REFRESH_SECRET" then Some "r-secret"
  else None.

Definition no_env (name : string) : option string := None.


Definition deps_with (e : string -> option string) (o : settle_order)
  : Deps World :=
  mkDeps World find_user create_user is_userid_exist update_password
         sign verify draw_salt derive encode decode e (fun _ => o).

Definition deps : Deps World := deps_with env LeftFirst.
Definition deps_unconfigured : Deps World := deps_with no_env LeftFirst.

Definition alice : User :=
  mkUser "id-alice" "alice" "alice@x.com" (encode "s0" (derive "pw" "s0")).

Definition w_empty : World := mkWorld [] 0 true true.
Definition w_alice : World := mkWorld [alice] 0 true true.
Definition w_readonly : World := mkWorld [alice] 0 true false.
Definition w_down : World := mkWorld [alice] 0 false true.
Definition w_deleted : World := mkWorld [] 0 true true.
End Demo.

(** ** Reading an interaction log *)

Definition is_ack (e : event) : bool :=
  match e with EvAck => true | _ => false end.
Definition is_nack (e : event) : bool :=
  match e with EvNack => true | _ => false end.
Definition is_sign (e : event) : bool :=
  match e with EvSign _ _ _ => true | _ => false end.

(** The interaction [e] got a failure for an answer. *)
Definition failed_interaction (e : event) : bool :=
  match e with
  | EvFindUser _ (Thrown _) | EvCreateUser _ (Thrown _)
  | EvIsUseridExist _ (Thrown _) | EvUpdatePassword _ (Thrown _)
  | EvSign _ _ (Thrown _) | EvVerify _ _ (Thrown _) => true
  | _ => false
  end.

Definition count (p : event -> bool) (l : list event) : nat :=
  length (filter p l).

(** The password [plaintext] was verified successfully. *)
Definition is_verified (plaintext : string) (e : event) : bool :=
  match e with
  | EvScryptVerify p _ true => String.eqb p plaintext
  | _ => false
  end.

(** A digest of [plaintext] was computed. *)
Definition is_rehash (plaintext : string) (e : event) : bool :=
  match e with
  | EvScryptHash p _ => String.eqb p plaintext
  | _ => false
  end.

Definition is_write_back (e : event) : bool :=
  match e with EvUpdatePassword _ _ => true | _ => false end.

Definition is_write_back_ok (e : event) : bool :=
  match e with EvUpdatePassword _ (Returned true) => true | _ => false end.

(** Every entry satisfying [Q] comes strictly after some entry satisfying
    [P]. *)
Definition preceded_by (P Q : event -> bool) (l : list event) : Prop :=
  forall before e after,
    l = (before ++ e :: after)%list -> Q e = true -> existsb P before = true.

(** ** The paths a method can take

    Each relation lists, for one method, the possible runs in terms of the
    answers the outside world gave.  They are proved exhaustive below. *)

Section Paths.
Context {W : Type} (D : Deps W).

(** What [Promise.all] makes of two settled signatures, the first argument
    being the one that settled first. *)
Definition first_rejection {A B C} (f : A -> B -> C)
    (first : outcome A) (second : outcome B) : outcome C :=
  match first, second with
  | Returned a, Returned b => Returned (f a b)
  | Thrown e, _ => Thrown e
  | Returned _, Thrown e => Thrown e
  end.

Inductive generateJWT_run (payload : JwtPayload) (w : W) : Run W Jwt -> Prop :=
| issue_access_first ra w1 rb w2 :
    scheduler D w = LeftFirst ->
    jwt_sign D payload (AuthService.access_sign_options D) w = (ra, w1) ->
    jwt_sign D payload (AuthService.refresh_sign_options D) w1 = (rb, w2) ->
    generateJWT_run payload w
      (mkRun (first_rejection mkJwt ra rb) w2
         [EvSign payload (AuthService.access_sign_options D) ra;
          EvSign payload (AuthService.refresh_sign_options D) rb])
| issue_refresh_first ra w1 rb w2 :
    scheduler D w = RightFirst ->
    jwt_sign D payload (AuthService.refresh_sign_options D) w = (rb, w1) ->
    jwt_sign D payload (AuthService.access_sign_options D) w1 = (ra, w2) ->
    generateJWT_run payload w
      (mkRun (first_rejection (fun b a => mkJwt a b) rb ra) w2
         [EvSign payload (AuthService.refresh_sign_options D) rb;
          EvSign payload (AuthService.access_sign_options D) ra]).

(** The result of [validateUser] once the write-back has answered. *)
Definition after_rotation (u : User) (answer : outcome bool)
  : outcome (option User) :=
  match answer with
  | Returned true => Returned (Some u)
  | Returned false => Returned None
  | Thrown e => Thrown e
  end.

Inductive validateUser_run (emailOrUsername password : string) (w : W)
  : Run W (option User) -> Prop :=
| lookup_failed e w1 :
    dir_find_user D (mkEmailAndUsernameDto emailOrUsername emailOrUsername) w
      = (Thrown e, w1) ->
    validateUser_run emailOrUsername password w
      (mkRun (Thrown e) w1
         [EvFindUser (mkEmailAndUsernameDto emailOrUsername emailOrUsername)
                     (Thrown e)])
| no_record w1 :
    dir_find_user D (mkEmailAndUsernameDto emailOrUsername emailOrUsername) w
      = (Returned None, w1) ->
    validateUser_run emailOrUsername password w
      (mkRun (Returned None) w1
         [EvFindUser (mkEmailAndUsernameDto emailOrUsername emailOrUsername)
                     (Returned None)])
| mismatch u w1 :
    dir_find_user D (mkEmailAndUsernameDto emailOrUsername emailOrUsername) w
      = (Returned (Some u), w1) ->
    Scrypt.matches D password (u_password u) = false ->
    validateUser_run emailOrUsername password w
      (mkRun (Returned None) w1
         [EvFindUser (mkEmailAndUsernameDto emailOrUsername emailOrUsername)
                     (Returned (Some u));
          EvScryptVerify password (u_password u) false])
| rotated u w1 digest w2 answer w3 :
    dir_find_user D (mkEmailAndUsernameDto emailOrUsername emailOrUsername) w
      = (Returned (Some u), w1) ->
    Scrypt.matches D password (u_password u) = true ->
    Scrypt.fresh_digest D password w1 = (digest, w2) ->
    dir_update_password D (mkUpdatePassword (_id u) digest) w2
      = (answer, w3) ->
    validateUser_run emailOrUsername password w
      (mkRun (after_rotation u answer) w3
         [EvFindUser (mkEmailAndUsernameDto emailOrUsername emailOrUsername)
                     (Returned (Some u));
          EvScryptVerify password (u_password u) true;
          EvScryptHash password digest;
          EvUpdatePassword (mkUpdatePassword (_id u) digest) answer]).

(** [Jwt] as the value of a [Promise<Jwt | undefined>]. *)
Definition issued (g : outcome Jwt) : outcome (maybe Jwt) :=
  match g with
  | Returned jwt => Returned (JsValue jwt)
  | Thrown e => Thrown e
  end.

Inductive login_run (loginUserDto : LoginUserDto) (w : W)
  : Run W (maybe Jwt) -> Prop :=
| login_thrown v e :
    validateUser_run (usernameOrEmail loginUserDto)
      (lg_password loginUserDto) w v ->
    res v = Thrown e ->
    login_run loginUserDto w (mkRun (Thrown e) (world v) (log v))
| login_refused v :
    validateUser_run (usernameOrEmail loginUserDto)
      (lg_password loginUserDto) w v ->
    res v = Returned None ->
    login_run loginUserDto w (mkRun (Returned JsUndefined) (world v) (log v))
| login_issued v u g :
    validateUser_run (usernameOrEmail loginUserDto)
      (lg_password loginUserDto) w v ->
    res v = Returned (Some u) ->
    g = AuthService.generateJWT D (mkJwtPayload (_id u)) (world v) ->
    login_run loginUserDto w
      (mkRun (issued (res g)) (world g) (log v ++ log g)).

Definition refresh_verify_options : JwtVerifyOptions :=
  mkVerifyOptions (process_env D AuthService.JWT_REFRESH_SECRET).

Inductive refresh_run (refreshToken : string) (w : W)
  : Run W (maybe Jwt) -> Prop :=
| refresh_no_prefix :
    startsWith refreshToken "Bearer " = false ->
    refresh_run refreshToken w (mkRun (Returned JsUndefined) w [])
| refresh_rejected token e w1 :
    startsWith refreshToken "Bearer " = true ->
    nth_error (split_space refreshToken) 1 = Some token ->
    jwt_verify D token refresh_verify_options w = (Thrown e, w1) ->
    refresh_run refreshToken w
      (mkRun (Returned JsUndefined) w1
         [EvVerify token refresh_verify_options (Thrown e); EvConsoleLog e])
| refresh_issued token claim w1 g :
    startsWith refreshToken "Bearer " = true ->
    nth_error (split_space refreshToken) 1 = Some token ->
    jwt_verify D token refresh_verify_options w = (Returned claim, w1) ->
    g = AuthService.generateJWT D (mkJwtPayload (sub claim)) w1 ->
    refresh_run refreshToken w
      (mkRun (issued (res g)) (world g)
         (EvVerify token refresh_verify_options (Returned claim) :: log g)).
End Paths.

(** ** The stages of one login, as the outside world answers them *)

Section LoginStages.
Context {W : Type} (D : Deps W) (loginUserDto : LoginUserDto) (w : W).

Definition login_lookup : outcome (option User) * W :=
  dir_find_user D
    (mkEmailAndUsernameDto (usernameOrEmail loginUserDto)
                           (usernameOrEmail loginUserDto)) w.

(** (a) the directory has no record for the name. *)
Definition no_matching_record : Prop :=
  fst login_lookup = Returned None.

(** (b) a record is found and the password does not verify against its
    stored digest. *)
Definition password_mismatch : Prop :=
  exists u, fst login_lookup = Returned (Some u) /\
            Scrypt.matches D (lg_password loginUserDto) (u_password u) = false.

(** The write-back of the rotation for record [u]: a digest of the same
    plaintext under a newly drawn salt is sent to the directory. *)
Definition login_write_back (u : User) : outcome bool * W :=
  let '(digest, w2) :=
    Scrypt.fresh_digest D (lg_password loginUserDto) (snd login_lookup) in
  dir_update_password D (mkUpdatePassword (_id u) digest) w2.

(** A record is found, the password verifies, and the write-back gets
    [answer]. *)
Definition rotation_answers (u : User) (answer : outcome bool) : Prop :=
  fst login_lookup = Returned (Some u) /\
  Scrypt.matches D (lg_password loginUserDto) (u_password u) = true /\
  fst (login_write_back u) = answer.
End LoginStages.

(** ** The stages of one registration *)

Section RegisterStages.
Context {W : Type} (D : Deps W) (createUserDto : CreateUserDto) (w : W).

Definition register_lookup : outcome (option User) * W :=
  dir_find_user D
    (mkEmailAndUsernameDto (cu_email createUserDto)
                           (cu_username createUserDto)) w.

Definition register_create : outcome (option string) * W :=
  dir_create_user D createUserDto (snd register_lookup).
End RegisterStages.

Definition USER_EXISTS : register_result :=
  RegError (mkErrorData 2002 "User already exists").
Definition USER_CREATE_FAILED : register_result :=
  RegError (mkErrorData 2003 "User creation failed").

(** ** Bearer tokens *)

(** A token in compact form holds no space. *)
Fixpoint compact (s : string) : bool :=
  match s with
  | EmptyString => true
  | String c rest => negb (Ascii.eqb c " "%char) && compact rest
  end.

(** ** What a handler makes of a run of its service method *)

(** The service method ran as [service]; [handler] is then the run of the
    message handler around it: on a normal return the message is acknowledged
    and the value handed on (through [wrap]); on a throw the error is logged,
    the message rejected and [default] returned. *)
Definition handled {W A B} (service : Run W A) (wrap : A -> B) (default : B)
    (handler : Run W B) : Prop :=
  match res service with
  | Returned v =>
      handler = mkRun (Returned (wrap v)) (world service)
                      (log service ++ [EvAck])
  | Thrown e =>
      handler = mkRun (Returned default) (world service)
                      (log service ++ [EvConsoleLog e; EvNack])
  end.

(** Neither terminal callback occurs in a log. *)
Definition silent (l : list event) : Prop :=
  count is_ack l = 0 /\ count is_nack l = 0.

(** Exactly one of the two terminal callbacks occurs in a log. *)
Definition settled_once (l : list event) : Prop :=
  count is_ack l + count is_nack l = 1.


(** The terminal callback matches the way the service method ended: an
    acknowledgement for a return, a rejection for a throw. *)
Definition settled_by {W A} (service : Run W A) (l : list event) : Prop :=
  match res service with
  | Returned _ => count is_ack l = 1 /\ count is_nack l = 0
  | Thrown _ => count is_ack l = 0 /\ count is_nack l = 1
  end.

Definition is_failed_sign (e : event) : bool :=
  match e with EvSign _ _ (Thrown _) => true | _ => false end.

Definition is_console_log (e : event) : bool :=
  match e with EvConsoleLog _ => true | _ => false end.

(** The handler run [h] isolates failures: if some interaction of the request
    failed, the message is rejected (and not acknowledged) and the caller gets
    [default]. *)
Definition isolates_failures {W B} (failure : event -> bool) (default : B)
    (h : Run W B) : Prop :=
  existsb failure (log h) = true ->
  res h = Returned default /\ count is_nack (log h) = 1 /\
  count is_ack (log h) = 0.

(** The handler run [h] absorbs failures: whatever failed, the message is
    acknowledged and the caller gets a value. *)
Definition acknowledges {W B} (h : Run W B) : Prop :=
  (exists v, res h = Returned v) /\ count is_ack (log h) = 1 /\
  count is_nack (log h) = 0.

(** ** apps/youapp-api/src/app.controller.ts: the remaining endpoints

    The endpoints that talk to the user service run in a monad of the same
    shape as [M], over their own kind of interaction. *)

Module Api.

(** *** JavaScript objects and the values they hold *)

(** A value of a request body or of a message payload: [undefined], a string,
    or anything else ([V] is left open). *)
Inductive field (V : Type) : Type :=
| FUndefined
| FString (s : string)
| FOther (v : V).
Arguments FUndefined {V}.
Arguments FString {V} s.
Arguments FOther {V} v.

(** An object: its own keys in insertion order, each with its value. *)
Definition obj (V : Type) : Type := list (string * field V).

Definition keys {V} (o : obj V) : list string := map fst o.

(** [o[k]], [None] when [o] has no own key [k]. *)
Fixpoint obj_get {V} (k : string) (o : obj V) : option (field V) :=
  match o with
  | [] => None
  | (k', v) :: rest => if String.eqb k' k then Some v else obj_get k rest
  end.

(** [o.k] as an expression: [undefined] for a missing key. *)
Definition obj_read {V} (k : string) (o : obj V) : field V :=
  match obj_get k o with
  | Some v => v
  | None => FUndefined
  end.

(** [o[k] = v]: an existing key keeps its place, a new one goes last. *)
Fixpoint obj_set {V} (k : string) (v : field V) (o : obj V) : obj V :=
  match o with
  | [] => [(k, v)]
  | (k', v') :: rest =>
      if String.eqb k' k then (k, v) :: rest
      else (k', v') :: obj_set k v rest
  end.

(** [{...base, ...src}]: the keys of [src] are written over [base] in
    order.  Keys stay in insertion order; that JavaScript enumerates
    integer-like keys first is not modelled, and objects are read by key. *)
Definition spread {V} (base src : obj V) : obj V :=
  fold_left (fun acc kv => obj_set (fst kv) (snd kv) acc) src base.

(** *** The birthday format [/^\d{4}-\d{2}-\d{2}$/] *)

Inductive atom : Type :=
| Digit
| Lit (c : ascii).

Definition is_digit (c : ascii) : bool :=
  match digit_value c with Some _ => true | None => false end.

Definition atom_matches (a : atom) (c : ascii) : bool :=
  match a with
  | Digit => is_digit c
  | Lit c' => Ascii.eqb c c'
  end.

(** A sequence of one-character atoms anchored at both ends ([^...$]). *)
Fixpoint match_anchored (p : list atom) (s : string) : bool :=
  match p, s with
  | [], EmptyString => true
  | a :: p', String c s' => atom_matches a c && match_anchored p' s'
  | _, _ => false
  end.

Definition birthday_pattern : list atom :=
  (repeat Digit 4 ++ [Lit "-"%char] ++ repeat Digit 2 ++ [Lit "-"%char]
   ++ repeat Digit 2)%list.

(** [/^\d{4}-\d{2}-\d{2}$/.exec(s)] is not [null]. *)
Definition birthday_format (s : string) : bool :=
  match_anchored birthday_pattern s.

Fixpoint all_digits (s : string) : bool :=
  match s with
  | EmptyString => true
  | String c rest => is_digit c && all_digits rest
  end.

(** *** Responses *)

Record Body (T : Type) : Type := mkBody {
  isOk : bool;
  errorCode : option Z;
  message : option string;
  data : option T
}.
Arguments mkBody {T} isOk errorCode message data.
Arguments isOk {T} b.
Arguments errorCode {T} b.
Arguments message {T} b.
Arguments data {T} b.

(** [res.status(n).json(body)], or [res.status(n).send()] with no body. *)
Record Response (T : Type) : Type := mkResponse {
  status : Z;
  body : option (Body T)
}.
Arguments mkResponse {T} status body.
Arguments status {T} r.
Arguments body {T} r.

Definition buildErrorReponse {T} (errorCode : Z) (message : string)
  : Response T :=
  mkResponse 500 (Some (mkBody false (Some errorCode) (Some message) None)).

(** [result] is what [firstValueFrom(this.authService.send('register', ...))]
    delivered.  [(result as ErrorData).statusCode] is [undefined] on a
    boolean and falsy on the number 0. *)
Definition register (result : register_result) : Response unit :=
  match result with
  | RegError e =>
      if negb (statusCode e =? 0)%Z
      then buildErrorReponse (statusCode e) (error_text e)
      else mkResponse 201 None
  | RegBool _ => mkResponse 201 None
  end.

(** *** Profiles *)

Record HoroscopeZodiac := mkHoroscopeZodiac {
  horoscope : string;
  zodiac : string
}.

(** Modelled from the spec: the [ProfileDocument] and [Profile] interfaces of
    apps/user are not among the sources and the spec does not list their
    fields; the fields are those [sanitizeProfile] reads and writes.  Their
    values are left open, except [interests], whose length is read. *)
Record ProfileDocument (V : Type) : Type := mkProfileDocument {
  pd_id : V;
  pd_name : V;
  pd_birthday : V;
  pd_heightInCm : V;
  pd_weightInKg : V;
  pd_gender : V;
  pd_interests : option (list V);
  pd_zodiac : V;
  pd_horoscope : V
}.
Arguments mkProfileDocument {V}.
Arguments pd_id {V} p.
Arguments pd_name {V} p.
Arguments pd_birthday {V} p.
Arguments pd_heightInCm {V} p.
Arguments pd_weightInKg {V} p.
Arguments pd_gender {V} p.
Arguments pd_interests {V} p.
Arguments pd_zodiac {V} p.
Arguments pd_horoscope {V} p.

Record Profile (V : Type) : Type := mkProfile {
  pId : V;
  pf_name : V;
  pf_birthday : V;
  pf_username : string;
  pf_heightInCm : V;
  pf_weightInKg : V;
  pf_gender : V;
  pf_interests : option (list V);
  pf_zodiac : V;
  pf_horoscope : V
}.
Arguments mkProfile {V}.
Arguments pId {V} p.
Arguments pf_name {V} p.
Arguments pf_birthday {V} p.
Arguments pf_username {V} p.
Arguments pf_heightInCm {V} p.
Arguments pf_weightInKg {V} p.
Arguments pf_gender {V} p.
Arguments pf_interests {V} p.
Arguments pf_zodiac {V} p.
Arguments pf_horoscope {V} p.

Definition sanitizeProfile {V} (data : ProfileDocument V) (username : string)
  : Profile V :=
  let tempdata :=
    mkProfile (pd_id data) (pd_name data) (pd_birthday data) username
              (pd_heightInCm data) (pd_weightInKg data) (pd_gender data)
              (pd_interests data) (pd_zodiac data) (pd_horoscope data) in
  match pf_interests tempdata with
  | Some [] =>
      mkProfile (pId tempdata) (pf_name tempdata) (pf_birthday tempdata)
                (pf_username tempdata) (pf_heightInCm tempdata)
                (pf_weightInKg tempdata) (pf_gender tempdata)
                None (pf_zodiac tempdata) (pf_horoscope tempdata)
  | _ => tempdata
  end.

(** The answer to 'get-profile-and-user'. *)
Record ProfileAndUser (V : Type) : Type := mkProfileAndUser {
  pu_profile : option (ProfileDocument V);
  pu_user : option User
}.
Arguments mkProfileAndUser {V}.
Arguments pu_profile {V} p.
Arguments pu_user {V} p.

(** *** Interactions with the user service *)

Inductive api_event (V : Type) : Type :=
| EvGetProfileAndUser (id : string) (r : outcome (ProfileAndUser V))
| EvUpdateProfile (payload : obj V) (r : outcome bool)
| EvGetHoroscopeZodiac (birthday : field V)
    (r : outcome (option HoroscopeZodiac)).
Arguments EvGetProfileAndUser {V} id r.
Arguments EvUpdateProfile {V} payload r.
Arguments EvGetHoroscopeZodiac {V} birthday r.

(** The user service as the HTTP application reaches it, and the coercions
    the JavaScript runtime applies to a value that is not a string. *)
Record ApiDeps (V W : Type) : Type := mkApiDeps {
  get_profile_and_user : string -> W -> outcome (ProfileAndUser V) * W;
  update_profile : obj V -> W -> outcome bool * W;
  get_horoscope_zodiac :
    field V -> W -> outcome (option HoroscopeZodiac) * W;
  other_truthy : V -> bool;
  other_to_string : V -> string
}.
Arguments get_profile_and_user {V W} a _ _.
Arguments update_profile {V W} a _ _.
Arguments get_horoscope_zodiac {V W} a _ _.
Arguments other_truthy {V W} a _.
Arguments other_to_string {V W} a _.

Record Run (V W A : Type) : Type := mkRun {
  res : outcome A;
  world : W;
  log : list (api_event V)
}.
Arguments mkRun {V W A} res world log.
Arguments res {V W A} r.
Arguments world {V W A} r.
Arguments log {V W A} r.

Definition M (V W A : Type) : Type := W -> Run V W A.

Definition ret {V W A} (a : A) : M V W A :=
  fun w => mkRun (Returned a) w [].

Definition bind {V W A B} (m : M V W A) (f : A -> M V W B) : M V W B :=
  fun w =>
    let r := m w in
    match res r with
    | Returned a =>
        let r' := f a (world r) in
        mkRun (res r') (world r') (log r ++ log r')
    | Thrown e => mkRun (Thrown e) (world r) (log r)
    end.

Definition interact {V W A} (ask : W -> outcome A * W)
    (ev : outcome A -> api_event V) : M V W A :=
  fun w => let '(o, w') := ask w in mkRun o w' [ev o].

Declare Scope api_scope.
Delimit Scope api_scope with api.
Notation "x <- m ;; k" := (bind m (fun x => k))
  (at level 61, m at next level, right associativity) : api_scope.
Local Open Scope api_scope.

Section WithDeps.
Context {V W : Type} (A : ApiDeps V W).

(** [if (x)] *)
Definition truthy (x : field V) : bool :=
  match x with
  | FUndefined => false
  | FString EmptyString => false
  | FString (String _ _) => true
  | FOther v => other_truthy A v
  end.

(** The string a regular expression is run on. *)
Definition to_string (x : field V) : string :=
  match x with
  | FUndefined => "undefined"
  | FString s => s
  | FOther v => other_to_string A v
  end.

Definition getHoroscopeZodiac (birthday : field V)
  : M V W (option HoroscopeZodiac) :=
  interact (get_horoscope_zodiac A birthday) (EvGetHoroscopeZodiac birthday).

Definition bad_birthday_format {T} (code : Z) : Response T :=
  mkResponse 400
    (Some (mkBody false (Some code)
             (Some "Birthday is not in the format of YYYY-MM-DD") None)).

(** [result?.horoscope] and [result?.zodiac]. *)
Definition optional_horoscope (result : option HoroscopeZodiac) : field V :=
  match result with
  | Some hz => FString (horoscope hz)
  | None => FUndefined
  end.
Definition optional_zodiac (result : option HoroscopeZodiac) : field V :=
  match result with
  | Some hz => FString (zodiac hz)
  | None => FUndefined
  end.

(** The part of [update] up to the message to the user service: an early
    response, or the object to send. *)
Definition update_prepare (updateProfileDto : obj V)
  : M V W (Response unit + obj V) :=
  if Nat.eqb (length (keys updateProfileDto)) 0 then
    ret (inl (mkResponse 200 None))
  else if truthy (obj_read "birthday" updateProfileDto) then
    if negb (birthday_format (to_string (obj_read "birthday" updateProfileDto)))
    then ret (inl (bad_birthday_format 1003))
    else
      result <- getHoroscopeZodiac (obj_read "birthday" updateProfileDto) ;;
      ret (inr (obj_set "zodiac" (optional_zodiac result)
                  (obj_set "horoscope" (optional_horoscope result)
                     (spread [] updateProfileDto))))
  else ret (inr updateProfileDto).

(** [sub] is [req.payload.sub], set by the guard. *)
Definition update (sub : string) (updateProfileDto : obj V)
  : M V W (Response unit) :=
  prepared <- update_prepare updateProfileDto ;;
  match prepared with
  | inl response => ret response
  | inr toupdate =>
      isOk <- interact
                (update_profile A (spread [("userId", FString sub)] toupdate))
                (EvUpdateProfile (spread [("userId", FString sub)] toupdate)) ;;
      ret (mkResponse (if isOk : bool then 200 else 400) None)
  end.

(** [body.birthday] of a [BirthdayDto]: [None] when the key is missing. *)
Definition askHoroscopeZodiac (birthday : option string)
  : M V W (Response HoroscopeZodiac) :=
  match birthday with
  | None | Some EmptyString =>
      ret (mkResponse 400
             (Some (mkBody false (Some 1004%Z) (Some "Birthday is required")
                      None)))
  | Some b =>
      if negb (birthday_format b) then ret (bad_birthday_format 1005)
      else
        result <- getHoroscopeZodiac (FString b) ;;
        match result with
        | None =>
            ret (mkResponse 500
                   (Some (mkBody false (Some 1006%Z)
                            (Some "Failed to get horoscope and/or zodiac")
                            None)))
        | Some hz =>
            ret (mkResponse 200
                   (Some (mkBody true None None
                            (Some (mkHoroscopeZodiac (horoscope hz)
                                                     (zodiac hz))))))
        end
  end.

Definition getProfile (sub : string) : M V W (Response (Profile V)) :=
  answer <- interact (get_profile_and_user A sub) (EvGetProfileAndUser sub) ;;
  let response :=
    match pu_profile answer, pu_user answer with
    | Some profile, Some user =>
        mkBody true None None
               (Some (sanitizeProfile profile (username user)))
    | _, _ => mkBody false (Some 1000%Z) (Some "Profile not found") None
    end in
  ret (mkResponse (if is_null (pu_profile answer) then 404 else 201)
                  (Some response)).
End WithDeps.
End Api.

(** A user service for concrete requests: it stores the last update and
    knows one sign. *)
Module ApiDemo.
Import Api.

Record World := mkWorld {
  last_update : option (obj string);
  service_up : bool
}.

Definition horoscope_of (birthday : field string)
  : option HoroscopeZodiac :=
  match birthday with
  | FString "1990-04-01" => Some (mkHoroscopeZodiac "Aries" "Horse")
  | _ => None
  end.

Definition deps : ApiDeps string World :=
  mkApiDeps string World
    (fun id w => (Returned (mkProfileAndUser None None), w))
    (fun payload w =>
       if service_up w then (Returned true, mkWorld (Some payload) true)
       else (Thrown "user service unreachable", w))
    (fun birthday w => (Returned (horoscope_of birthday), w))
    (fun v => negb (String.eqb v ""))
    (fun v => v).

Definition w0 : World := mkWorld None true.

(** Some request bodies. *)
Definition aries : option HoroscopeZodiac :=
  Some (mkHoroscopeZodiac "Aries" "Horse").

Definition with_birthday : obj string :=
  [("name", FString "Al"); ("birthday", FString "1990-04-01");
   ("horoscope", FString "Leo")].

Definition with_empty_birthday : obj string :=
  [("birthday", FString ""); ("horoscope", FString "Leo")].

Definition with_userId : obj string :=
  [("name", FString "Al"); ("userId", FString "id-bob")].

End ApiDemo.

(** ** Kinds of interaction *)

(** The interaction is with the JWT library or the console, not with the user
    directory or the password hasher. *)
Definition is_token_event (e : event) : bool :=
  match e with
  | EvSign _ _ _ | EvVerify _ _ _ | EvConsoleLog _ => true
  | _ => false
  end.

(** The reply of each message handler, as the HTTP application receives it and
    turns it into a response. *)
Definition reply_of {W A} (h : Run W A) (default : A) : A :=
  match res h with
  | Returned v => v
  | Thrown _ => default
  end.

(** The paths of the profile update, in terms of the body and of the answers
    of the user service. *)
Module ApiPaths.
Import Api.
Section WithDeps.
Context {V W : Type} (A : ApiDeps V W).

(** What [update] answers once 'update-profile' has. *)
Definition update_reply (answer : outcome bool) : outcome (Response unit) :=
  match answer with
  | Returned isOk => Returned (mkResponse (if isOk then 200%Z else 400%Z) None)
  | Thrown e => Thrown e
  end.

Definition update_payload (sub : string) (toupdate : obj V) : obj V :=
  spread [("userId", FString sub)] toupdate.

Definition with_signs (result : option HoroscopeZodiac) (dto : obj V) : obj V :=
  obj_set "zodiac" (optional_zodiac result)
    (obj_set "horoscope" (optional_horoscope result) (spread [] dto)).

(** The runs of [update], by the shape of the body and the answers of the
    user service. *)
Inductive update_run (sub : string) (dto : obj V) (w : W)
  : Run V W (Response unit) -> Prop :=
| update_nothing :
    dto = [] ->
    update_run sub dto w (mkRun (Returned (mkResponse 200 None)) w [])
| update_bad_birthday :
    dto <> [] ->
    truthy A (obj_read "birthday" dto) = true ->
    birthday_format (to_string A (obj_read "birthday" dto)) = false ->
    update_run sub dto w (mkRun (Returned (bad_birthday_format 1003)) w [])
| update_lookup_failed e w1 :
    dto <> [] ->
    truthy A (obj_read "birthday" dto) = true ->
    birthday_format (to_string A (obj_read "birthday" dto)) = true ->
    get_horoscope_zodiac A (obj_read "birthday" dto) w = (Thrown e, w1) ->
    update_run sub dto w
      (mkRun (Thrown e) w1
         [EvGetHoroscopeZodiac (obj_read "birthday" dto) (Thrown e)])
| update_with_signs result w1 answer w2 :
    dto <> [] ->
    truthy A (obj_read "birthday" dto) = true ->
    birthday_format (to_string A (obj_read "birthday" dto)) = true ->
    get_horoscope_zodiac A (obj_read "birthday" dto) w
      = (Returned result, w1) ->
    update_profile A (update_payload sub (with_signs result dto)) w1
      = (answer, w2) ->
    update_run sub dto w
      (mkRun (update_reply answer) w2
         [EvGetHoroscopeZodiac (obj_read "birthday" dto) (Returned result);
          EvUpdateProfile (update_payload sub (with_signs result dto)) answer])
| update_as_sent answer w2 :
    dto <> [] ->
    truthy A (obj_read "birthday" dto) = false ->
    update_profile A (update_payload sub dto) w = (answer, w2) ->
    update_run sub dto w
      (mkRun (update_reply answer) w2
         [EvUpdateProfile (update_payload sub dto) answer]).

End WithDeps.
End ApiPaths.

(** ** Failures at the gateway *)

(** A failed call to the user directory or a failed signature. *)
Definition unexpected_failure (e : event) : bool :=
  match e with
  | EvFindUser _ (Thrown _) | EvCreateUser _ (Thrown _)
  | EvIsUseridExist _ (Thrown _) | EvUpdatePassword _ (Thrown _)
  | EvSign _ _ (Thrown _) => true
  | _ => false
  end.

Definition is_failed_verify (e : event) : bool :=
  match e with EvVerify _ _ (Thrown _) => true | _ => false end.

(** The service method threw and the handler caught it: the error is logged,
    the message rejected, and [default] is the reply. *)
Definition rejected {W A B} (s : Run W A) (default : B) (h : Run W B) : Prop :=
  exists e,
    res s = Thrown e /\
    h = mkRun (Returned default) (world s)
              (log s ++ [EvConsoleLog e; EvNack]).

(** The service method caught the failure itself and returned [undefined];
    the handler acknowledged the message and [undefined] is the reply. *)
Definition absorbed {W A} (s h : Run W (maybe A)) : Prop :=
  res s = Returned JsUndefined /\
  h = mkRun (Returned JsUndefined) (world s) (log s ++ [EvAck]).

Definition nacked (l : list event) : Prop :=
  count is_nack l = 1 /\ count is_ack l = 0.

Definition acked (l : list event) : Prop :=
  count is_ack l = 1 /\ count is_nack l = 0.

(** The 'hash-password' handler of [AuthController], with the hashing method
    it calls taken as a parameter. *)
Definition hashPassword_around {W} (hashPassword : string -> M W string)
    (context : RmqContext string) : M W (maybe string) :=
  let extractedData := SharedService.extractData context in
  try_catch
    (result <- hashPassword (data extractedData) ;;
     ack extractedData ;;;
     ret (JsValue result))
    (fun error =>
       emit (EvConsoleLog error) ;;;
       nack extractedData ;;;
       ret JsNull).

(** * Properties *)

Ltac unfold_monad :=
  unfold bind, try_catch, interact, emit, ret, throw, promise_all2 in *.

Ltac simpl_run :=
  cbn [fst snd res world log app after_rotation first_rejection issued] in *.

(** Routine closing steps: take hypotheses apart, replace answered questions
    by their answers, compare constructors. *)
Ltac settle_step :=
  match goal with
  | |- _ /\ _ => split
  | |- _ <-> _ => split
  | |- forall _, _ => intro
  | |- _ <> _ => intro
  | H : _ /\ _ |- _ => destruct H
  | H : exists _, _ |- _ => destruct H
  | H : _ \/ _ |- _ => destruct H
  | H : Returned _ = Returned _ |- _ => inversion H; subst; clear H
  | H : (_, _) = (_, _) |- _ => inversion H; subst; clear H
  | E : ?x = (_, _), H : context [?x] |- _ =>
      rewrite E in H; cbn [fst snd] in H
  | E : ?x = (_, _) |- context [?x] => rewrite E; cbn [fst snd]
  | E : ?x = mkRun _ _ _, H : context [?x] |- _ =>
      rewrite E in H; cbn [res world log] in H
  | E : ?x = mkRun _ _ _ |- context [?x] => rewrite E; cbn [res world log]
  | u : User |- exists _ : User, _ => exists u
  end.

Ltac settle :=
  repeat settle_step;
  try discriminate; try congruence;
  try match goal with
    | |- _ \/ _ => solve [left; settle] || solve [right; settle]
    end;
  eauto 8.

(** *** Splitting a bearer header *)

Lemma split_space_nonempty (s : string) : split_space s <> [].
Proof.
  induction s as [|c rest IH]; cbn [split_space].
  - discriminate.
  - destruct (Ascii.eqb c " "); [ discriminate | ].
    destruct (split_space rest); [ contradiction | discriminate ].
Qed.

Lemma split_space_compact (s : string) :
  compact s = true -> split_space s = [s].
Proof.
  induction s as [|c rest IH]; cbn [split_space compact]; intros H.
  - reflexivity.
  - apply andb_true_iff in H as [Hc Hrest].
    apply negb_true_iff in Hc. rewrite Hc, (IH Hrest). reflexivity.
Qed.

Lemma startsWith_app (s p : string) :
  startsWith s p = true -> exists rest, s = p ++ rest.
Proof.
  unfold startsWith. revert s.
  induction p as [|a p IH]; intros s H.
  - exists s. reflexivity.
  - destruct s as [|b s]; cbn [String.prefix] in H; [ discriminate | ].
    destruct (ascii_dec a b) as [->|]; [ | discriminate ].
    destruct (IH s H) as [rest ->]. exists rest. reflexivity.
Qed.

Lemma startsWith_bearer (rest : string) :
  startsWith ("Bearer " ++ rest) "Bearer " = true.
Proof.
  unfold startsWith. cbn. destruct rest; reflexivity.
Qed.

Lemma split_space_bearer (rest : string) :
  split_space ("Bearer " ++ rest) = "Bearer" :: split_space rest.
Proof.
  cbn. destruct (split_space rest) eqn:E; reflexivity.
Qed.

Lemma bearer_token (s : string) :
  startsWith s "Bearer " = true ->
  exists token, nth_error (split_space s) 1 = Some token.
Proof.
  intros H. destruct (startsWith_app _ _ H) as [rest ->].
  rewrite split_space_bearer.
  destruct (split_space rest) as [|token l] eqn:E.
  - now apply split_space_nonempty in E.
  - exists token. reflexivity.
Qed.

Section Runs.
Context {W : Type} (D : Deps W).

Lemma generateJWT_paths (payload : JwtPayload) (w : W) :
  generateJWT_run D payload w (AuthService.generateJWT D payload w).
Proof.
  unfold AuthService.generateJWT, AuthService.signAsync.
  unfold_monad.
  destruct (scheduler D w) eqn:Hs.
  - destruct (jwt_sign D payload (AuthService.access_sign_options D) w)
      as [ra w1] eqn:Ha.
    simpl_run.
    destruct (jwt_sign D payload (AuthService.refresh_sign_options D) w1)
      as [rb w2] eqn:Hb.
    pose proof (issue_access_first D payload w ra w1 rb w2 Hs Ha Hb) as Hrun.
    destruct ra, rb; exact Hrun.
  - destruct (jwt_sign D payload (AuthService.refresh_sign_options D) w)
      as [rb w1] eqn:Hb.
    simpl_run.
    destruct (jwt_sign D payload (AuthService.access_sign_options D) w1)
      as [ra w2] eqn:Ha.
    pose proof (issue_refresh_first D payload w ra w1 rb w2 Hs Hb Ha) as Hrun.
    destruct ra, rb; exact Hrun.
Qed.

Lemma validateUser_paths (emailOrUsername password : string) (w : W) :
  validateUser_run D emailOrUsername password w
    (AuthService.validateUser D emailOrUsername password w).
Proof.
  unfold AuthService.validateUser, AuthService.send_find_user,
    AuthService.send_update_password, AuthService.hashPassword,
    Scrypt.verifyPassword, Scrypt.hashPassword.
  unfold_monad.
  destruct (dir_find_user D
              (mkEmailAndUsernameDto emailOrUsername emailOrUsername) w)
    as [[[u|]|e] w1] eqn:Hfind; simpl_run.
  - destruct (Scrypt.matches D password (u_password u)) eqn:Hm; simpl_run.
    + destruct (Scrypt.fresh_digest D password w1) as [digest w2] eqn:Hd.
      simpl_run.
      destruct (dir_update_password D (mkUpdatePassword (_id u) digest) w2)
        as [answer w3] eqn:Hup.
      pose proof (rotated D emailOrUsername password w u w1 digest w2
                    answer w3 Hfind Hm Hd Hup) as Hrun.
      destruct answer as [[|]|]; exact Hrun.
    + now apply mismatch.
  - now apply no_record.
  - now apply lookup_failed.
Qed.

Lemma login_paths (loginUserDto : LoginUserDto) (w : W) :
  login_run D loginUserDto w (AuthService.login D loginUserDto w).
Proof.
  unfold AuthService.login, bind.
  pose proof (validateUser_paths (usernameOrEmail loginUserDto)
                (lg_password loginUserDto) w) as Hv.
  remember (AuthService.validateUser D (usernameOrEmail loginUserDto)
              (lg_password loginUserDto) w) as v eqn:Ev.
  clear Ev. destruct (res v) as [[u|]|e] eqn:Hres.
  - pose proof (login_issued D loginUserDto w v u _ Hv Hres eq_refl) as H.
    destruct (res (AuthService.generateJWT D (mkJwtPayload (_id u))
                     (world v)));
      unfold ret; simpl_run; rewrite ?app_nil_r; exact H.
  - unfold ret; simpl_run. rewrite app_nil_r.
    now apply login_refused.
  - now apply login_thrown.
Qed.

Lemma refresh_paths (refreshToken : string) (w : W) :
  refresh_run D refreshToken w (AuthService.refresh D refreshToken w).
Proof.
  unfold AuthService.refresh, AuthService.refresh_guarded,
    AuthService.verifyAsync.
  destruct (startsWith refreshToken "Bearer ") eqn:Hprefix.
  - destruct (bearer_token _ Hprefix) as [token Htoken]. rewrite Htoken.
    unfold_monad.
    fold (refresh_verify_options D).
    destruct (jwt_verify D token (refresh_verify_options D) w)
      as [[claim|e] w1] eqn:Hverify; simpl_run.
    + pose proof (refresh_issued D refreshToken w token claim w1 _
                    Hprefix Htoken Hverify eq_refl) as H.
      destruct (res (AuthService.generateJWT D (mkJwtPayload (sub claim))
                       w1));
        simpl_run; rewrite ?app_nil_r; exact H.
    + now apply refresh_rejected.
  - unfold_monad. simpl_run. now apply refresh_no_prefix.
Qed.
End Runs.

Section LoginProperties.
Context {W : Type} (D : Deps W).

(** C1.  Login gate: login returns [undefined] exactly when (a) the lookup
    finds no record, or (b) the password does not verify against the stored
    digest, or (c) it verifies but the update-password write-back reports
    failure.  A token pair is returned exactly when lookup, verification and
    write-back all succeed (and the pair is then the one issued for the
    record's id); [null] is never returned. *)
Theorem login_gate (loginUserDto : LoginUserDto) (w : W) :
  (res (AuthService.login D loginUserDto w) = Returned JsUndefined <->
     no_matching_record D loginUserDto w
     \/ password_mismatch D loginUserDto w
     \/ exists u, rotation_answers D loginUserDto w u (Returned false))
  /\ (forall jwt,
        res (AuthService.login D loginUserDto w) = Returned (JsValue jwt) <->
        exists u,
          rotation_answers D loginUserDto w u (Returned true) /\
          res (AuthService.generateJWT D (mkJwtPayload (_id u))
                 (snd (login_write_back D loginUserDto w u))) = Returned jwt)
  /\ res (AuthService.login D loginUserDto w) <> Returned JsNull.
Proof.
  unfold no_matching_record, password_mismatch, rotation_answers,
    login_write_back, login_lookup, AuthService.login.
  unfold bind at 1 3 5.
  destruct (validateUser_paths D (usernameOrEmail loginUserDto)
              (lg_password loginUserDto) w) as
    [e w1 Hfind | w1 Hfind | u w1 Hfind Hm | u w1 digest w2 answer w3 Hfind Hm Hd Hup];
    rewrite Hfind; simpl_run.
  - settle.
  - settle.
  - settle.
  - rewrite Hd; simpl_run.
    destruct answer as [[|]|e]; simpl_run; unfold bind, ret;
      try destruct (AuthService.generateJWT D (mkJwtPayload (_id u)) w3)
        as [[jwt|e] w4 l] eqn:Hissue;
      simpl_run; settle.
Qed.
End LoginProperties.

Section Precedence.
Variables P Q : event -> bool.

Lemma preceded_by_nil : preceded_by P Q [].
Proof.
  intros [|x before] e after H; discriminate H.
Qed.

Lemma preceded_by_skip (x : event) (l : list event) :
  Q x = false -> preceded_by P Q l -> preceded_by P Q (x :: l).
Proof.
  intros Hx Hl [|y before] e after H HQ; injection H as -> ->.
  - congruence.
  - cbn [existsb]. rewrite (Hl before e after eq_refl HQ).
    apply orb_true_r.
Qed.

Lemma preceded_by_after (x : event) (l : list event) :
  P x = true -> Q x = false -> preceded_by P Q (x :: l).
Proof.
  intros HP Hx [|y before] e after H HQ; injection H as -> ->.
  - congruence.
  - cbn [existsb]. now rewrite HP.
Qed.
End Precedence.

(** Decide a precedence on a log whose entries are known constructors. *)
Ltac order_log :=
  repeat first
    [ apply preceded_by_nil
    | apply preceded_by_after;
      [ cbn; rewrite ?String.eqb_refl; reflexivity | reflexivity ]
    | apply preceded_by_skip; [ reflexivity | ] ].

Section LoginOrdering.
Context {W : Type} (D : Deps W).

(** C7.  Ordering within one login: a successful verification of the
    submitted password strictly precedes the re-hash of that same plaintext,
    which strictly precedes the write-back of that digest (computed under a
    newly drawn salt), and a successful write-back strictly precedes every
    signature; without a successful write-back nothing is signed and no
    token pair is returned. *)
Theorem login_ordering (loginUserDto : LoginUserDto) (w : W) :
  let pw := lg_password loginUserDto in
  let run := AuthService.login D loginUserDto w in
  preceded_by (is_verified pw) (is_rehash pw) (log run)
  /\ preceded_by (is_rehash pw) is_write_back (log run)
  /\ preceded_by (is_verified pw) is_write_back (log run)
  /\ (forall u answer,
        In (EvUpdatePassword u answer) (log run) ->
        In (EvScryptHash pw (up_password u)) (log run) /\
        up_password u =
          fst (Scrypt.fresh_digest D pw
                 (snd (login_lookup D loginUserDto w))))
  /\ preceded_by is_write_back_ok is_sign (log run)
  /\ (existsb is_write_back_ok (log run) = false ->
      existsb is_sign (log run) = false /\
      forall jwt, res run <> Returned (JsValue jwt)).
Proof.
  cbv zeta. unfold login_lookup.
  destruct (login_paths D loginUserDto w) as
    [v e Hv Hres | v Hv Hres | v u g Hv Hres ->].
  3: destruct (generateJWT_paths D (mkJwtPayload (_id u)) (world v))
       as [ra w4 rb w5 Hs Ha Hb | ra w4 rb w5 Hs Hb Ha].
  all: destruct Hv as [e' w1 Hfind | w1 Hfind | u' w1 Hfind Hm
                    | u' w1 digest w2 answer w3 Hfind Hm Hd Hup].
  all: try destruct answer as [[|]|e''].
  all: simpl_run; try discriminate Hres.
  all: rewrite Hfind; simpl_run.
  all: (split; [order_log | ]).
  all: (split; [order_log | ]).
  all: (split; [order_log | ]).
  all: (split; [ | split; [order_log | ] ]).
  all: try (cbn; intros Hno;
            first [ discriminate Hno
                  | split; [ reflexivity | intros jwt; discriminate ] ]).
  all: intros x answer Hin; cbn [In] in Hin;
    repeat match goal with
      | H : _ \/ _ |- _ => destruct H as [H | H]
      end;
    try discriminate; try contradiction;
    injection Hin as <- <-;
    rewrite Hd; cbn; auto 6.
Qed.
End LoginOrdering.

Section RegisterProperties.
Context {W : Type} (D : Deps W).

(** C3.  Registration: the result is the error 2002 'User already exists'
    exactly when the lookup by email-or-username finds a record (and then no
    create is sent); it is the error 2003 'User creation failed' when the
    lookup finds none and the create returns no id; it is [true] only when
    the create returned a non-null id (exactly when that id is a non-empty
    string). *)
Theorem register_outcomes (createUserDto : CreateUserDto) (w : W) :
  let run := AuthService.register D createUserDto w in
  let lookup := register_lookup D createUserDto w in
  let create := register_create D createUserDto w in
  (res run = Returned USER_EXISTS <->
     exists u, fst lookup = Returned (Some u))
  /\ ((exists u, fst lookup = Returned (Some u)) ->
      log run = [EvFindUser (mkEmailAndUsernameDto (cu_email createUserDto)
                               (cu_username createUserDto)) (fst lookup)])
  /\ (fst lookup = Returned None -> fst create = Returned None ->
      res run = Returned USER_CREATE_FAILED)
  /\ (res run = Returned USER_CREATE_FAILED <->
      fst lookup = Returned None /\
      (fst create = Returned None \/ fst create = Returned (Some "")))
  /\ (res run = Returned (RegBool true) <->
      fst lookup = Returned None /\
      exists id, fst create = Returned (Some id) /\ id <> "").
Proof.
  cbv zeta.
  unfold register_create, register_lookup, AuthService.register,
    AuthService.send_find_user, AuthService.send_create_user,
    USER_EXISTS, USER_CREATE_FAILED.
  unfold_monad.
  destruct (dir_find_user D
              (mkEmailAndUsernameDto (cu_email createUserDto)
                                     (cu_username createUserDto)) w)
    as [[[u|]|e] w1] eqn:Hfind; simpl_run; cbn [is_null negb].
  - settle.
  - destruct (dir_create_user D createUserDto w1)
      as [[[[|c id]|]|e] w2] eqn:Hcreate;
      simpl_run; cbn [is_null js_not_string orb]; simpl_run; settle.
    exists (String c id). split; [ reflexivity | discriminate ].
  - settle.
Qed.
End RegisterProperties.

Section ValidateProperties.
Context {W : Type} (D : Deps W).

(** C4.  validateJwt returns the session claim exactly when the token
    verifies (signature and expiry) under the access secret and the
    directory then reports that the claim's subject id exists; it returns
    [undefined] when verification fails, and when the directory reports that
    the subject does not exist; it never throws and never returns [null]. *)
Theorem validateJwt_outcomes (jwt : string) (w : W) :
  let opts := mkVerifyOptions (process_env D AuthService.JWT_ACCESS_SECRET) in
  let run := AuthService.validateJwt D jwt w in
  let verification := jwt_verify D jwt opts w in
  let existence claim :=
    dir_is_userid_exist D (sub claim) (snd verification) in
  (forall claim,
     res run = Returned (JsValue claim) <->
     fst verification = Returned claim /\
     fst (existence claim) = Returned true)
  /\ ((exists e, fst verification = Thrown e) ->
      res run = Returned JsUndefined)
  /\ (forall claim,
        fst verification = Returned claim ->
        fst (existence claim) = Returned false ->
        res run = Returned JsUndefined)
  /\ (res run = Returned JsUndefined \/
      exists claim, res run = Returned (JsValue claim)).
Proof.
  cbv zeta.
  unfold AuthService.validateJwt, AuthService.verifyAsync,
    AuthService.send_is_userid_exist.
  unfold_monad.
  destruct (jwt_verify D jwt
              (mkVerifyOptions (process_env D AuthService.JWT_ACCESS_SECRET))
              w) as [[claim|e] w1] eqn:Hverify; simpl_run.
  - destruct (dir_is_userid_exist D (sub claim) w1) as [[[|]|e] w2] eqn:Hex;
      simpl_run; cbn [negb]; simpl_run; settle.
  - settle.
Qed.
End ValidateProperties.

Section IssuanceProperties.
Context {W : Type} (D : Deps W).


(** Every interaction of an issuance is a signature over the given
    payload. *)
Lemma generateJWT_signs_payload (payload : JwtPayload) (w : W) (e : event) :
  In e (log (AuthService.generateJWT D payload w)) ->
  exists opts r, e = EvSign payload opts r.
Proof.
  destruct (generateJWT_paths D payload w)
    as [ra w1 rb w2 Hs Ha Hb | ra w1 rb w2 Hs Hb Ha];
    simpl_run; cbn [In]; intros [<-|[<-|[]]]; eauto.
Qed.
End IssuanceProperties.

Section RefreshProperties.
Context {W : Type} (D : Deps W).

(** C2.  Refresh: without the "Bearer " prefix the result is [undefined]
    and nothing is asked of anyone.  For "Bearer " followed by a compact
    token, the token is verified under the refresh secret; when it verifies,
    the result is that of issuing a pair for the verified claim's subject
    (so a new pair whenever the signatures are produced), and every
    signature is over that subject alone; when verification fails (bad
    signature or expired) the result is [undefined]. *)
Theorem refresh_contract (refreshToken : string) (w : W) :
  let run := AuthService.refresh D refreshToken w in
  (startsWith refreshToken "Bearer " = false ->
   run = mkRun (Returned JsUndefined) w [])
  /\ (forall token,
        refreshToken = "Bearer " ++ token -> compact token = true ->
        let verification := jwt_verify D token (refresh_verify_options D) w in
        match fst verification with
        | Returned claim =>
            let g := AuthService.generateJWT D (mkJwtPayload (sub claim))
                       (snd verification) in
            res run = issued (res g)
            /\ (forall jwt,
                  res g = Returned jwt -> res run = Returned (JsValue jwt))
            /\ log run
               = EvVerify token (refresh_verify_options D) (Returned claim)
                 :: log g
            /\ (forall p opts r,
                  In (EvSign p opts r) (log run) ->
                  p = mkJwtPayload (sub claim))
        | Thrown e =>
            res run = Returned JsUndefined
            /\ log run = [EvVerify token (refresh_verify_options D) (Thrown e);
                          EvConsoleLog e]
        end)
  /\ (startsWith refreshToken "Bearer " = true ->
      exists token,
        nth_error (split_space refreshToken) 1 = Some token
        /\ ((exists e, fst (jwt_verify D token (refresh_verify_options D) w)
                        = Thrown e) ->
            res run = Returned JsUndefined)).
Proof.
  cbv zeta. split; [ | split ].
  - intros Hprefix.
    destruct (refresh_paths D refreshToken w)
      as [_ | token e w1 H _ _ | token claim w1 g H _ _ _];
      [ reflexivity | congruence | congruence ].
  - intros token -> Hcompact.
    destruct (refresh_paths D ("Bearer " ++ token) w)
      as [H | token' e w1 _ Htoken Hverify
         | token' claim w1 g _ Htoken Hverify ->].
    + rewrite startsWith_bearer in H. discriminate H.
    + rewrite split_space_bearer, (split_space_compact _ Hcompact) in Htoken.
      injection Htoken as <-. rewrite Hverify. simpl_run. auto.
    + rewrite split_space_bearer, (split_space_compact _ Hcompact) in Htoken.
      injection Htoken as <-. rewrite Hverify. simpl_run.
      repeat split.
      * intros jwt ->. reflexivity.
      * intros p opts r [Hin|Hin]; [ discriminate Hin | ].
        apply generateJWT_signs_payload in Hin as (opts' & r' & Heq).
        now injection Heq as ->.
  - intros Hprefix.
    destruct (refresh_paths D refreshToken w)
      as [H | token e w1 _ Htoken Hverify
         | token claim w1 g _ Htoken Hverify ->];
      [ congruence | | ]; exists token; (split; [ exact Htoken | ]).
    + reflexivity.
    + intros [e He]. rewrite Hverify in He. discriminate He.
Qed.
End RefreshProperties.

(** *** Logs of the service methods hold no terminal callback *)

Lemma count_app (p : event -> bool) (l1 l2 : list event) :
  count p (l1 ++ l2) = count p l1 + count p l2.
Proof.
  unfold count. now rewrite filter_app, length_app.
Qed.

Lemma silent_app (l1 l2 : list event) :
  silent l1 -> silent l2 -> silent (l1 ++ l2).
Proof.
  unfold silent. intros [H1 H2] [H3 H4]. rewrite !count_app. lia.
Qed.

Section Silence.
Context {W : Type} (D : Deps W).

Lemma generateJWT_silent (payload : JwtPayload) (w : W) :
  silent (log (AuthService.generateJWT D payload w)).
Proof.
  destruct (generateJWT_paths D payload w); split; reflexivity.
Qed.

Lemma validateUser_silent (name pw : string) (w : W) :
  silent (log (AuthService.validateUser D name pw w)).
Proof.
  destruct (validateUser_paths D name pw w); split; reflexivity.
Qed.

Lemma login_silent (loginUserDto : LoginUserDto) (w : W) :
  silent (log (AuthService.login D loginUserDto w)).
Proof.
  destruct (login_paths D loginUserDto w) as
    [v e Hv Hres | v Hv Hres | v u g Hv Hres ->]; simpl_run.
  3: apply silent_app; [ | apply generateJWT_silent ].
  all: destruct Hv; split; reflexivity.
Qed.

Lemma refresh_silent (refreshToken : string) (w : W) :
  silent (log (AuthService.refresh D refreshToken w)).
Proof.
  destruct (refresh_paths D refreshToken w) as
    [H | token e w1 _ _ _ | token claim w1 g _ _ _ ->]; simpl_run.
  1, 2: split; reflexivity.
  apply (silent_app [_]); [ split; reflexivity | apply generateJWT_silent ].
Qed.

Lemma register_silent (createUserDto : CreateUserDto) (w : W) :
  silent (log (AuthService.register D createUserDto w)).
Proof.
  unfold AuthService.register, AuthService.send_find_user,
    AuthService.send_create_user.
  unfold_monad.
  destruct (dir_find_user D _ w) as [[[u|]|e] w1]; simpl_run;
    cbn [is_null negb]; simpl_run; try (split; reflexivity).
  destruct (dir_create_user D createUserDto w1) as [[userId|e] w2];
    simpl_run; [ destruct (js_not_string userId || is_null userId) | ];
    split; reflexivity.
Qed.

Lemma validateJwt_silent (jwt : string) (w : W) :
  silent (log (AuthService.validateJwt D jwt w)).
Proof.
  unfold AuthService.validateJwt, AuthService.verifyAsync,
    AuthService.send_is_userid_exist.
  unfold_monad.
  destruct (jwt_verify D jwt _ w) as [[claim|e] w1]; simpl_run;
    try (split; reflexivity).
  destruct (dir_is_userid_exist D (sub claim) w1) as [[[|]|e] w2];
    simpl_run; split; reflexivity.
Qed.

Lemma hashPassword_run (password : string) (w : W) :
  AuthService.hashPassword D password w
  = mkRun (Returned (fst (Scrypt.fresh_digest D password w)))
          (snd (Scrypt.fresh_digest D password w))
          [EvScryptHash password (fst (Scrypt.fresh_digest D password w))].
Proof.
  unfold AuthService.hashPassword, Scrypt.hashPassword.
  destruct (Scrypt.fresh_digest D password w); reflexivity.
Qed.

(** The shape shared by the five handlers. *)
Lemma handler_shape {A B} (service : M W A) (wrap : A -> B) (default : B)
    (w : W) :
  handled (service w) wrap default
    (try_catch
       (result <- service ;; emit EvAck ;;; ret (wrap result))
       (fun error =>
          emit (EvConsoleLog error) ;;; emit EvNack ;;; ret default) w).
Proof.
  unfold handled. unfold_monad.
  destruct (service w) as [[v|e] w1 l]; simpl_run; reflexivity.
Qed.

Lemma handled_settles {A B} (s : Run W A) (wrap : A -> B) (default : B)
    (h : Run W B) :
  silent (log s) -> handled s wrap default h -> settled_once (log h).
Proof.
  unfold handled, settled_once. intros [Ha Hn] H.
  destruct (res s); subst h; simpl_run; rewrite !count_app, Ha, Hn;
    reflexivity.
Qed.
End Silence.

Section GatewayProperties.
Context {W : Type} (D : Deps W).

Lemma handled_settled_by {A B} (s : Run W A) (wrap : A -> B) (default : B)
    (h : Run W B) :
  silent (log s) -> handled s wrap default h -> settled_by s (log h).
Proof.
  unfold handled, settled_by. intros [Ha Hn] H.
  destruct (res s); subst h; simpl_run; rewrite !count_app, Ha, Hn;
    split; reflexivity.
Qed.

Lemma register_handled (context : RmqContext CreateUserDto) (w : W) :
  handled (AuthService.register D (message_data context) w)
    (fun r => r) (RegBool false) (AuthController.register D context w).
Proof. apply (handler_shape _ (fun r => r)). Qed.

Lemma login_handled (context : RmqContext LoginUserDto) (w : W) :
  handled (AuthService.login D (message_data context) w)
    (fun r => r) JsNull (AuthController.login D context w).
Proof. apply (handler_shape _ (fun r => r)). Qed.

Lemma refresh_handled (context : RmqContext string) (w : W) :
  handled (AuthService.refresh D (message_data context) w)
    (fun r => r) JsNull (AuthController.refresh D context w).
Proof. apply (handler_shape _ (fun r => r)). Qed.

Lemma hashPassword_handled (context : RmqContext string) (w : W) :
  handled (AuthService.hashPassword D (message_data context) w)
    JsValue JsNull (AuthController.hashPassword D context w).
Proof. apply (handler_shape _ JsValue). Qed.

Lemma validate_handled (context : RmqContext string) (w : W) :
  handled (AuthService.validateJwt D (message_data context) w)
    (fun r => r) JsNull (AuthController.validate D context w).
Proof. apply (handler_shape _ (fun r => r)). Qed.

Lemma hashPassword_silent (password : string) (w : W) :
  silent (log (AuthService.hashPassword D password w)).
Proof. rewrite hashPassword_run. split; reflexivity. Qed.

(** C6.  Ack exactly once: in each of the five handlers, a normal return of
    the service method (a business error included) is followed by [ack()] and
    the value is handed on; a throw is followed by a log entry and [nack()]
    and the default ([false] for register, [null] otherwise) is returned.
    Either way exactly one of the two callbacks occurs in the whole
    request. *)
Theorem ack_exactly_once (w : W) :
  (forall context,
     let s := AuthService.register D (message_data context) w in
     let h := AuthController.register D context w in
     handled s (fun r => r) (RegBool false) h
     /\ settled_by s (log h) /\ settled_once (log h))
  /\ (forall context,
        let s := AuthService.login D (message_data context) w in
        let h := AuthController.login D context w in
        handled s (fun r => r) JsNull h
        /\ settled_by s (log h) /\ settled_once (log h))
  /\ (forall context,
        let s := AuthService.refresh D (message_data context) w in
        let h := AuthController.refresh D context w in
        handled s (fun r => r) JsNull h
        /\ settled_by s (log h) /\ settled_once (log h))
  /\ (forall context,
        let s := AuthService.hashPassword D (message_data context) w in
        let h := AuthController.hashPassword D context w in
        handled s JsValue JsNull h
        /\ settled_by s (log h) /\ settled_once (log h))
  /\ (forall context,
        let s := AuthService.validateJwt D (message_data context) w in
        let h := AuthController.validate D context w in
        handled s (fun r => r) JsNull h
        /\ settled_by s (log h) /\ settled_once (log h)).
Proof.
  repeat split.
  - apply register_handled.
  - eapply handled_settled_by;
      [ apply register_silent | apply register_handled ].
  - eapply handled_settles;
      [ apply register_silent | apply register_handled ].
  - apply login_handled.
  - eapply handled_settled_by; [ apply login_silent | apply login_handled ].
  - eapply handled_settles; [ apply login_silent | apply login_handled ].
  - apply refresh_handled.
  - eapply handled_settled_by;
      [ apply refresh_silent | apply refresh_handled ].
  - eapply handled_settles; [ apply refresh_silent | apply refresh_handled ].
  - apply hashPassword_handled.
  - eapply handled_settled_by;
      [ apply hashPassword_silent | apply hashPassword_handled ].
  - eapply handled_settles;
      [ apply hashPassword_silent | apply hashPassword_handled ].
  - apply validate_handled.
  - eapply handled_settled_by;
      [ apply validateJwt_silent | apply validate_handled ].
  - eapply handled_settles;
      [ apply validateJwt_silent | apply validate_handled ].
Qed.

(** C9.  hashPassword: for every plaintext the service method returns a
    digest, the encoding of a drawn salt and the key derived under it; the
    handler acknowledges and hands that digest on, and its error branch (log,
    reject, [null]) is never taken. *)
Theorem hashPassword_never_fails (plaintext : string) (w : W) :
  let digest := fst (Scrypt.fresh_digest D plaintext w) in
  let h := AuthController.hashPassword D (mkRmqContext plaintext) w in
  res (AuthService.hashPassword D plaintext w) = Returned digest
  /\ digest = encode_digest D (fst (random_salt D w))
                (kdf D plaintext (fst (random_salt D w)))
  /\ res h = Returned (JsValue digest)
  /\ log h = [EvScryptHash plaintext digest; EvAck]
  /\ count is_nack (log h) = 0
  /\ count is_console_log (log h) = 0.
Proof.
  cbv zeta.
  pose proof (hashPassword_handled (mkRmqContext plaintext) w) as H.
  unfold handled in H. cbn [message_data] in H.
  rewrite hashPassword_run in H. simpl_run. rewrite H. simpl_run.
  repeat split.
  - now rewrite hashPassword_run.
  - unfold Scrypt.fresh_digest. now destruct (random_salt D w).
Qed.
End GatewayProperties.

Section FailureProperties.
Context {W : Type} (D : Deps W).

Lemma generateJWT_failure (payload : JwtPayload) (w : W) :
  existsb failed_interaction (log (AuthService.generateJWT D payload w))
    = true ->
  exists e, res (AuthService.generateJWT D payload w) = Thrown e.
Proof.
  destruct (generateJWT_paths D payload w) as [ra w1 rb w2 _ _ _
                                              | ra w1 rb w2 _ _ _];
    destruct ra, rb; simpl_run; cbn; intros H; try discriminate H; eauto.
Qed.

Lemma login_failure (loginUserDto : LoginUserDto) (w : W) :
  existsb failed_interaction (log (AuthService.login D loginUserDto w))
    = true ->
  exists e, res (AuthService.login D loginUserDto w) = Thrown e.
Proof.
  destruct (login_paths D loginUserDto w) as
    [v e Hv Hres | v Hv Hres | v u g Hv Hres ->]; simpl_run.
  - eauto.
  - destruct Hv as [e w1 Hfind | w1 Hfind | u w1 Hfind Hm
                   | u w1 digest w2 [[|]|e] w3 Hfind Hm Hd Hup]; simpl_run;
      try discriminate Hres; cbn; intros Hf; discriminate Hf.
  - rewrite existsb_app. intros Hf. apply orb_true_iff in Hf as [Hf|Hf].
    + destruct Hv as [e w1 Hfind | w1 Hfind | u' w1 Hfind Hm
                     | u' w1 digest w2 [[|]|e] w3 Hfind Hm Hd Hup];
        simpl_run; try discriminate Hres; cbn in Hf; discriminate Hf.
    + apply generateJWT_failure in Hf as [e ->]. simpl_run. eauto.
Qed.

Lemma register_failure (createUserDto : CreateUserDto) (w : W) :
  existsb failed_interaction (log (AuthService.register D createUserDto w))
    = true ->
  exists e, res (AuthService.register D createUserDto w) = Thrown e.
Proof.
  unfold AuthService.register, AuthService.send_find_user,
    AuthService.send_create_user.
  unfold_monad.
  destruct (dir_find_user D _ w) as [[[u|]|e] w1]; simpl_run;
    cbn [is_null negb]; simpl_run; cbn; try discriminate; eauto.
  destruct (dir_create_user D createUserDto w1) as [[userId|e] w2];
    simpl_run; [ destruct (js_not_string userId || is_null userId) | ];
    simpl_run; cbn; try discriminate; eauto.
Qed.

Lemma refresh_sign_failure (refreshToken : string) (w : W) :
  existsb is_failed_sign (log (AuthService.refresh D refreshToken w))
    = true ->
  exists e, res (AuthService.refresh D refreshToken w) = Thrown e.
Proof.
  destruct (refresh_paths D refreshToken w) as
    [H | token e w1 _ _ _ | token claim w1 g _ _ _ ->]; simpl_run;
    cbn; try discriminate.
  destruct (generateJWT_paths D (mkJwtPayload (sub claim)) w1)
    as [ra w2 rb w3 _ _ _ | ra w2 rb w3 _ _ _];
    destruct ra, rb; simpl_run; cbn; intros H; try discriminate H; eauto.
Qed.

Lemma refresh_throws_only_signing (refreshToken : string) (w : W) (e : error) :
  res (AuthService.refresh D refreshToken w) = Thrown e ->
  existsb is_failed_sign (log (AuthService.refresh D refreshToken w)) = true.
Proof.
  destruct (refresh_paths D refreshToken w) as
    [H | token e' w1 _ _ _ | token claim w1 g _ _ _ ->]; simpl_run;
    try discriminate.
  destruct (generateJWT_paths D (mkJwtPayload (sub claim)) w1)
    as [ra w2 rb w3 _ _ _ | ra w2 rb w3 _ _ _];
    destruct ra, rb; simpl_run; cbn; intros H; try discriminate H;
    reflexivity.
Qed.

(** A handler around a service method whose failed interactions always make
    it throw isolates those failures. *)
Lemma handled_isolates {A B} (failure : event -> bool) (s : Run W A)
    (wrap : A -> B) (default : B) (h : Run W B) :
  silent (log s) ->
  failure EvAck = false -> failure EvNack = false ->
  (forall e, failure (EvConsoleLog e) = false) ->
  (existsb failure (log s) = true -> exists e, res s = Thrown e) ->
  handled s wrap default h ->
  isolates_failures failure default h.
Proof.
  unfold handled, isolates_failures. intros [Ha Hn] Hfa Hfn Hfc Hthrow H Hfail.
  destruct (res s) as [v|e]; subst h; simpl_run.
  - rewrite existsb_app in Hfail. cbn in Hfail. rewrite Hfa in Hfail.
    rewrite !orb_false_r in Hfail.
    destruct (Hthrow Hfail) as [e He]. discriminate He.
  - rewrite !count_app, Ha, Hn. repeat split.
Qed.

Lemma handled_acknowledges {A} (s : Run W A) (default : A) (h : Run W A) :
  silent (log s) -> (exists v, res s = Returned v) ->
  handled s (fun r => r) default h ->
  (exists v, res s = Returned v /\ res h = Returned v) /\
  acknowledges h.
Proof.
  unfold handled, acknowledges. intros [Ha Hn] [v Hv] H.
  rewrite Hv in H. subst h. simpl_run. rewrite !count_app, Ha, Hn.
  repeat split; eauto.
Qed.
End FailureProperties.

Section GatewayFailures.
Context {W : Type} (D : Deps W).

Lemma validateJwt_absorbs (jwt : string) (w : W) :
  (exists v, res (AuthService.validateJwt D jwt w) = Returned v) /\
  (existsb failed_interaction (log (AuthService.validateJwt D jwt w)) = true ->
   res (AuthService.validateJwt D jwt w) = Returned JsUndefined).
Proof.
  unfold AuthService.validateJwt, AuthService.verifyAsync,
    AuthService.send_is_userid_exist.
  unfold_monad.
  destruct (jwt_verify D jwt _ w) as [[claim|e] w1]; simpl_run.
  - destruct (dir_is_userid_exist D (sub claim) w1) as [[[|]|e] w2];
      simpl_run; cbn; split; eauto; discriminate.
  - cbn; split; eauto.
Qed.

Lemma handled_log_tail {A B} (f : event -> bool) (s : Run W A)
    (wrap : A -> B) (default : B) (h : Run W B) :
  f EvAck = false -> f EvNack = false ->
  (forall e, f (EvConsoleLog e) = false) ->
  handled s wrap default h ->
  existsb f (log h) = existsb f (log s).
Proof.
  unfold handled. intros Ha Hn Hc H.
  destruct (res s); subst h; simpl_run; rewrite existsb_app; cbn;
    rewrite ?Ha, ?Hn, ?Hc; now rewrite !orb_false_r.
Qed.

Lemma unexpected_is_failed (l : list event) :
  existsb unexpected_failure l = true -> existsb failed_interaction l = true.
Proof.
  induction l as [|x l IH]; cbn [existsb]; [ discriminate | ].
  intros H. apply orb_true_iff in H as [H|H]; apply orb_true_iff.
  - left. destruct x as [? [|]|? [|]|? [|]|? [|]| | |? ? [|]|? ? [|]| | |];
      cbn in *; congruence.
  - right. now apply IH.
Qed.

Lemma refresh_unexpected_failure (refreshToken : string) (w : W) :
  existsb unexpected_failure (log (AuthService.refresh D refreshToken w))
    = true ->
  exists e, res (AuthService.refresh D refreshToken w) = Thrown e.
Proof.
  destruct (refresh_paths D refreshToken w) as
    [H | token e w1 _ _ _ | token claim w1 g _ _ _ ->]; simpl_run;
    cbn; try discriminate.
  destruct (generateJWT_paths D (mkJwtPayload (sub claim)) w1)
    as [ra w2 rb w3 _ _ _ | ra w2 rb w3 _ _ _];
    destruct ra, rb; simpl_run; cbn; intros Hf; try discriminate Hf; eauto.
Qed.

Lemma refresh_verify_failure (refreshToken : string) (w : W) :
  existsb is_failed_verify (log (AuthService.refresh D refreshToken w))
    = true ->
  res (AuthService.refresh D refreshToken w) = Returned JsUndefined.
Proof.
  destruct (refresh_paths D refreshToken w) as
    [H | token e w1 _ _ _ | token claim w1 g _ _ _ ->]; simpl_run;
    cbn; try discriminate; try reflexivity.
  destruct (generateJWT_paths D (mkJwtPayload (sub claim)) w1)
    as [ra w2 rb w3 _ _ _ | ra w2 rb w3 _ _ _];
    simpl_run; cbn; discriminate.
Qed.

Lemma handled_rejected {A B} (s : Run W A) (wrap : A -> B) (default : B)
    (h : Run W B) :
  handled s wrap default h -> (exists e, res s = Thrown e) ->
  rejected s default h /\ (silent (log s) -> nacked (log h)).
Proof.
  unfold handled, rejected, nacked. intros H [e He]. rewrite He in H.
  subst h. simpl_run. split; [ eauto | ].
  intros [Ha Hn]. rewrite !count_app, Ha, Hn. split; reflexivity.
Qed.

Lemma handled_absorbed {A} (s h : Run W (maybe A)) (default : maybe A) :
  handled s (fun r => r) default h -> silent (log s) ->
  res s = Returned JsUndefined ->
  absorbed s h /\ acked (log h).
Proof.
  unfold handled, absorbed, acked. intros H [Ha Hn] Hres. rewrite Hres in H.
  subst h. simpl_run. rewrite !count_app, Ha, Hn. repeat split.
  exact Hres.
Qed.

Lemma handled_throws {A B} (f : event -> bool) (s : Run W A)
    (wrap : A -> B) (default : B) (h : Run W B) :
  f EvAck = false -> f EvNack = false ->
  (forall e, f (EvConsoleLog e) = false) ->
  (existsb f (log s) = true -> exists e, res s = Thrown e) ->
  handled s wrap default h ->
  (exists e, res s = Thrown e) \/ existsb f (log h) = true ->
  exists e, res s = Thrown e.
Proof.
  intros Ha Hn Hc Hthrow Hh [H|H]; [ exact H | ].
  rewrite (handled_log_tail f _ _ _ _ Ha Hn Hc Hh) in H. auto.
Qed.

(** C5, as the code has it.  Whatever the register, login, refresh or
    hash-password method throws is caught at the gateway: the error is
    logged, the message rejected with [nack()], and the caller gets the
    default ([false] for register, [null] otherwise); for hash-password this
    is shown of the handler around any hashing method.  During register,
    login and refresh every failed directory call and every failed signature
    makes the service method throw.  validateJwt, however, never throws: it
    catches what its verification and its directory call throw, and refresh
    catches what its verification throws; the service method then returns
    [undefined], the message is acknowledged with [ack()] and [undefined] is
    the reply. *)
Theorem failures_at_the_gateway (w : W) :
  (forall context,
     let s := AuthService.register D (message_data context) w in
     let h := AuthController.register D context w in
     (exists e, res s = Thrown e)
     \/ existsb unexpected_failure (log h) = true ->
     rejected s (RegBool false) h /\ nacked (log h))
  /\ (forall context,
        let s := AuthService.login D (message_data context) w in
        let h := AuthController.login D context w in
        (exists e, res s = Thrown e)
        \/ existsb unexpected_failure (log h) = true ->
        rejected s JsNull h /\ nacked (log h))
  /\ (forall context,
        let s := AuthService.refresh D (message_data context) w in
        let h := AuthController.refresh D context w in
        (exists e, res s = Thrown e)
        \/ existsb unexpected_failure (log h) = true ->
        rejected s JsNull h /\ nacked (log h))
  /\ (forall context,
        AuthController.hashPassword D context
        = hashPassword_around (AuthService.hashPassword D) context)
  /\ (forall (hashPassword : string -> M W string) context,
        let s := hashPassword (message_data context) w in
        let h := hashPassword_around hashPassword context w in
        (exists e, res s = Thrown e) ->
        rejected s JsNull h /\ (silent (log s) -> nacked (log h)))
  /\ (forall context,
        let s := AuthService.validateJwt D (message_data context) w in
        let h := AuthController.validate D context w in
        (forall e, res s <> Thrown e)
        /\ acked (log h)
        /\ (existsb failed_interaction (log h) = true ->
            absorbed s h))
  /\ (forall context,
        let s := AuthService.refresh D (message_data context) w in
        let h := AuthController.refresh D context w in
        existsb is_failed_verify (log h) = true ->
        absorbed s h /\ acked (log h)).
Proof.
  split; [ | split; [ | split; [ | split; [ | split; [ | split ] ] ] ] ];
    cbv zeta.
  - intros context Hf.
    pose proof (register_handled D context w) as Hh.
    assert (Ht : exists e,
               res (AuthService.register D (message_data context) w)
               = Thrown e).
    { eapply (handled_throws unexpected_failure); eauto.
      intros H. apply register_failure. now apply unexpected_is_failed. }
    destruct (handled_rejected _ _ _ _ Hh Ht) as [Hr Hn].
    split; [ exact Hr | apply Hn, register_silent ].
  - intros context Hf.
    pose proof (login_handled D context w) as Hh.
    assert (Ht : exists e,
               res (AuthService.login D (message_data context) w) = Thrown e).
    { eapply (handled_throws unexpected_failure); eauto.
      intros H. apply login_failure. now apply unexpected_is_failed. }
    destruct (handled_rejected _ _ _ _ Hh Ht) as [Hr Hn].
    split; [ exact Hr | apply Hn, login_silent ].
  - intros context Hf.
    pose proof (refresh_handled D context w) as Hh.
    assert (Ht : exists e,
               res (AuthService.refresh D (message_data context) w)
               = Thrown e).
    { eapply (handled_throws unexpected_failure); eauto.
      apply refresh_unexpected_failure. }
    destruct (handled_rejected _ _ _ _ Hh Ht) as [Hr Hn].
    split; [ exact Hr | apply Hn, refresh_silent ].
  - reflexivity.
  - intros hashPassword context Ht.
    apply (handled_rejected _ JsValue).
    + apply (handler_shape (hashPassword (message_data context)) JsValue).
    + exact Ht.
  - intros context.
    pose proof (validate_handled D context w) as Hh.
    destruct (validateJwt_absorbs (message_data context) w) as [[v Hv] Hu].
    split; [ intros e He; congruence | ].
    split.
    + unfold handled in Hh. rewrite Hv in Hh. rewrite Hh. simpl_run.
      destruct (validateJwt_silent D (message_data context) w) as [Ha Hn].
      unfold acked. rewrite !count_app, Ha, Hn. split; reflexivity.
    + intros Hf.
      rewrite (handled_log_tail failed_interaction _ _ _ _
                 eq_refl eq_refl (fun _ => eq_refl) Hh) in Hf.
      apply (handled_absorbed _ _ _ Hh (validateJwt_silent D _ w) (Hu Hf)).
  - intros context Hf.
    pose proof (refresh_handled D context w) as Hh.
    rewrite (handled_log_tail is_failed_verify _ _ _ _
               eq_refl eq_refl (fun _ => eq_refl) Hh) in Hf.
    apply (handled_absorbed _ _ _ Hh (refresh_silent D _ w)
             (refresh_verify_failure _ _ Hf)).
Qed.
End GatewayFailures.

(** ** The HTTP endpoints *)

(** C10.  In the login and refresh endpoints the body's [isOk] is
    [result !== null] while the status follows [!result]: for [undefined] the
    status is 400 (login) or 401 (refresh) and the body is [isOk: true] with
    no message, no error code and no data. *)
Theorem http_isOk_flag (jwt : maybe Jwt) :
  AppController.isOk (AppController.body (AppController.login jwt))
    = strict_neq_null jwt
  /\ AppController.isOk (AppController.body (AppController.refreshToken jwt))
     = strict_neq_null jwt
  /\ AppController.login JsUndefined
     = AppController.mkHttpResponse 400
         (AppController.mkServerResponse true None None JsUndefined)
  /\ AppController.refreshToken JsUndefined
     = AppController.mkHttpResponse 401
         (AppController.mkServerResponse true None None JsUndefined)
  /\ AppController.login JsNull
     = AppController.mkHttpResponse 400
         (AppController.mkServerResponse false
            (Some "Invalid username, email or password") (Some 2004%Z)
            JsUndefined)
  /\ AppController.refreshToken JsNull
     = AppController.mkHttpResponse 401
         (AppController.mkServerResponse false
            (Some "Invalid refresh token") (Some 2005%Z) JsUndefined).
Proof.
  repeat split; destruct jwt; reflexivity.
Qed.

(** A refused login leaves the auth handler as [undefined], not [null]. *)
Lemma refused_login_is_undefined {W : Type} (D : Deps W)
    (context : RmqContext LoginUserDto) (w : W) :
  res (AuthService.login D (message_data context) w) = Returned JsUndefined ->
  res (AuthController.login D context w) = Returned JsUndefined.
Proof.
  intros H. pose proof (login_handled D context w) as Hh.
  unfold handled in Hh. rewrite H in Hh. now rewrite Hh.
Qed.

(** ** The properties on concrete requests *)

Module Concrete.
Import Demo.

(** A wrong password for a known name: no token pair. *)
Lemma login_gate_wrong_password :
  res (AuthService.login deps (mkLoginUserDto "alice" "bad") w_alice)
  = Returned JsUndefined.
Proof.
  apply (proj1 (login_gate deps (mkLoginUserDto "alice" "bad") w_alice)).
  right; left. exists alice. split; reflexivity.
Defined.

(** The right password against a directory that refuses the write-back. *)
Example login_gate_rotation_refused :
  res (AuthService.login deps (mkLoginUserDto "alice" "pw") w_readonly)
  = Returned JsUndefined.
Proof. reflexivity. Qed.

Example login_gate_success :
  res (AuthService.login deps (mkLoginUserDto "alice@x.com" "pw") w_alice)
  = Returned (JsValue (mkJwt "a-secret:3m:id-alice" "r-secret:7d:id-alice")).
Proof. reflexivity. Qed.

Lemma refresh_contract_valid :
  res (AuthService.refresh deps "Bearer r-secret:7d:id-alice" w_alice)
  = Returned (JsValue (mkJwt "a-secret:3m:id-alice" "r-secret:7d:id-alice")).
Proof.
  pose proof (proj1 (proj2 (refresh_contract deps
                              "Bearer r-secret:7d:id-alice" w_alice))
                "r-secret:7d:id-alice" eq_refl eq_refl) as H.
  vm_compute in H. destruct H as [H _]. exact H.
Defined.

Example refresh_contract_no_prefix :
  AuthService.refresh deps "r-secret:7d:id-alice" w_alice
  = mkRun (Returned JsUndefined) w_alice [].
Proof. reflexivity. Qed.

Example refresh_contract_expired :
  res (AuthService.refresh deps "Bearer r-secret:0s:id-alice" w_alice)
  = Returned JsUndefined.
Proof. reflexivity. Qed.

Example refresh_access_token_rejected :
  res (AuthService.refresh deps "Bearer a-secret:3m:id-alice" w_alice)
  = Returned JsUndefined.
Proof. reflexivity. Qed.

Lemma register_outcomes_existing :
  res (AuthService.register deps
         (mkCreateUserDto "alice" "other@x.com" "p") w_alice)
  = Returned USER_EXISTS.
Proof.
  apply (proj1 (register_outcomes deps
                  (mkCreateUserDto "alice" "other@x.com" "p") w_alice)).
  exists alice. reflexivity.
Defined.

Example register_then_again :
  let dto := mkCreateUserDto "a" "a@x.com" "p" in
  let first := AuthService.register deps dto w_empty in
  res first = Returned (RegBool true)
  /\ res (AuthService.register deps dto (world first)) = Returned USER_EXISTS.
Proof. split; reflexivity. Qed.

Lemma validateJwt_outcomes_valid :
  res (AuthService.validateJwt deps "a-secret:3m:id-alice" w_alice)
  = Returned (JsValue (mkJwtPayload "id-alice")).
Proof.
  apply (proj1 (validateJwt_outcomes deps "a-secret:3m:id-alice" w_alice)).
  split; reflexivity.
Defined.

Example validateJwt_wrong_secret :
  res (AuthService.validateJwt deps "r-secret:7d:id-alice" w_alice)
  = Returned JsUndefined.
Proof. reflexivity. Qed.

Example validateJwt_deleted_subject :
  res (AuthService.validateJwt deps "a-secret:3m:id-alice" w_deleted)
  = Returned JsUndefined.
Proof. reflexivity. Qed.

(** C5, as stated, fails.  The directory is unreachable while validate
    checks the subject: the failure is caught inside validateJwt, the
    message is acknowledged, not rejected, and the caller gets [undefined]. *)
Lemma validate_acknowledges_directory_outage :
  let h := AuthController.validate deps
             (mkRmqContext "a-secret:3m:id-alice") w_down in
  log h = [EvVerify "a-secret:3m:id-alice"
             (mkVerifyOptions (Some "a-secret"))
             (Returned (mkJwtPayload "id-alice"));
           EvIsUseridExist "id-alice" (Thrown "directory unreachable");
           EvAck]
  /\ existsb failed_interaction (log h) = true
  /\ res h = Returned JsUndefined
  /\ count is_nack (log h) = 0
  /\ count is_ack (log h) = 1
  /\ ~ isolates_failures failed_interaction JsNull h.
Proof.
  cbv zeta. repeat (split; [ reflexivity | ]).
  intros H. destruct (H eq_refl) as [Hres _]. discriminate Hres.
Qed.

(** The same outage during login does reach the gateway. *)
Lemma failures_at_the_gateway_login_outage :
  let context := mkRmqContext (mkLoginUserDto "alice" "pw") in
  rejected (AuthService.login deps (message_data context) w_down) JsNull
    (AuthController.login deps context w_down)
  /\ nacked (log (AuthController.login deps context w_down)).
Proof.
  cbv zeta.
  apply (proj1 (proj2 (failures_at_the_gateway deps w_down))
           (mkRmqContext (mkLoginUserDto "alice" "pw"))).
  right. reflexivity.
Defined.

(** What that rejection looks like. *)
Example login_outage_run :
  AuthController.login deps (mkRmqContext (mkLoginUserDto "alice" "pw")) w_down
  = mkRun (Returned JsNull) w_down
      [EvFindUser (mkEmailAndUsernameDto "alice" "alice")
         (Thrown "directory unreachable");
       EvConsoleLog "directory unreachable"; EvNack].
Proof. reflexivity. Qed.

(** An expired refresh token is answered [undefined] and acknowledged. *)
Example refresh_expired_is_acknowledged :
  AuthController.refresh deps (mkRmqContext "Bearer r-secret:0s:id-alice")
    w_alice
  = mkRun (Returned JsUndefined) w_alice
      [EvVerify "r-secret:0s:id-alice" (mkVerifyOptions (Some "r-secret"))
         (Thrown "jwt expired");
       EvConsoleLog "jwt expired"; EvAck].
Proof. reflexivity. Qed.



Lemma ack_exactly_once_login :
  settled_once
    (log (AuthController.login deps
            (mkRmqContext (mkLoginUserDto "alice" "pw")) w_alice)).
Proof.
  apply (proj1 (proj2 (ack_exactly_once deps w_alice))
           (mkRmqContext (mkLoginUserDto "alice" "pw"))).
Defined.

Lemma login_ordering_success :
  preceded_by is_write_back_ok is_sign
    (log (AuthService.login deps (mkLoginUserDto "alice" "pw") w_alice)).
Proof.
  apply (login_ordering deps (mkLoginUserDto "alice" "pw") w_alice).
Defined.

(** Both signatures of a pair, with the refresh one landing first. *)
Example issuance_refresh_first :
  let run := AuthService.generateJWT (deps_with env RightFirst)
               (mkJwtPayload "id-alice") w_alice in
  res run = Returned (mkJwt "a-secret:3m:id-alice" "r-secret:7d:id-alice")
  /\ log run
     = [EvSign (mkJwtPayload "id-alice") (mkSignOptions "7d" (Some "r-secret"))
          (Returned "r-secret:7d:id-alice");
        EvSign (mkJwtPayload "id-alice") (mkSignOptions "3m" (Some "a-secret"))
          (Returned "a-secret:3m:id-alice")].
Proof. split; reflexivity. Qed.

Example hash_password_request :
  let h := AuthController.hashPassword deps (mkRmqContext "p") w_empty in
  res h = Returned (JsValue "s$s/p")
  /\ log h = [EvScryptHash "p" "s$s/p"; EvAck].
Proof. split; reflexivity. Qed.

(** A wrong password leaves the auth handler as [undefined]; the login
    endpoint answers [undefined] with status 400 and [isOk: true]. *)
Example wrong_password_over_http :
  let context := mkRmqContext (mkLoginUserDto "alice" "bad") in
  let reply := res (AuthController.login deps context w_alice) in
  reply = Returned JsUndefined
  /\ AppController.login JsUndefined
     = AppController.mkHttpResponse 400
         (AppController.mkServerResponse true None None JsUndefined).
Proof. split; reflexivity. Qed.

Example login_unconfigured_secrets :
  let h := AuthController.login deps_unconfigured
             (mkRmqContext (mkLoginUserDto "alice" "pw")) w_alice in
  res h = Returned JsNull /\ count is_nack (log h) = 1 /\
  count is_failed_sign (log h) = 2.
Proof. repeat split. Qed.
End Concrete.

(** * Further properties of the auth service *)

Lemma split_space_word (t rest : string) :
  compact t = true -> split_space (t ++ " " ++ rest) = t :: split_space rest.
Proof.
  induction t as [|c t IH]; cbn [compact]; intros H.
  - reflexivity.
  - apply andb_true_iff in H as [Hc Ht]. apply negb_true_iff in Hc.
    cbn [append split_space]. rewrite Hc.
    change (t ++ String " " rest) with (t ++ " " ++ rest).
    now rewrite (IH Ht).
Qed.

Section RefreshExtras.
Context {W : Type} (D : Deps W).

(** X1.  Only the first word after "Bearer " is read: whatever follows a
    second space is ignored, so a header with trailing text is treated exactly
    like the header without it. *)
Theorem refresh_ignores_trailing_text (token junk : string) (w : W) :
  compact token = true ->
  AuthService.refresh D ("Bearer " ++ token ++ " " ++ junk) w
  = AuthService.refresh D ("Bearer " ++ token) w.
Proof.
  intros Hc.
  unfold AuthService.refresh, AuthService.refresh_guarded.
  rewrite !startsWith_bearer, !split_space_bearer.
  rewrite (split_space_word _ _ Hc), (split_space_compact _ Hc).
  reflexivity.
Qed.

(** X2.  refresh never turns to the user directory or the password hasher:
    its only interactions are one verification, the log entry of a failed one
    and the two signatures.  In particular it does not ask whether the subject
    still exists. *)
Theorem refresh_asks_only_the_token_codec (refreshToken : string) (w : W) :
  forallb is_token_event (log (AuthService.refresh D refreshToken w)) = true
  /\ count (fun e => match e with EvVerify _ _ _ => true | _ => false end)
       (log (AuthService.refresh D refreshToken w)) <= 1.
Proof.
  destruct (refresh_paths D refreshToken w) as
    [H | token e w1 _ _ _ | token claim w1 g _ _ _ ->]; simpl_run.
  1, 2: split; [ reflexivity | cbn; lia ].
  destruct (generateJWT_paths D (mkJwtPayload (sub claim)) w1)
    as [ra w2 rb w3 _ _ _ | ra w2 rb w3 _ _ _]; simpl_run;
    (split; [ reflexivity | cbn; lia ]).
Qed.
End RefreshExtras.

Section DirectoryExtras.
Context {W : Type} (D : Deps W).

(** X3.  register hands the registration payload to the directory exactly as
    it received it, plaintext password included: it does no hashing of its
    own, sends 'create-user' at most once, and only after the lookup answered
    [null]. *)
Theorem register_forwards_the_payload (createUserDto : CreateUserDto) (w : W) :
  let q := mkEmailAndUsernameDto (cu_email createUserDto)
                                 (cu_username createUserDto) in
  let run := AuthService.register D createUserDto w in
  (exists r, log run = [EvFindUser q r] /\ r <> Returned None)
  \/ (exists r, log run = [EvFindUser q (Returned None);
                           EvCreateUser createUserDto r]).
Proof.
  cbv zeta.
  unfold AuthService.register, AuthService.send_find_user,
    AuthService.send_create_user.
  unfold_monad.
  destruct (dir_find_user D _ w) as [[[u|]|e] w1]; simpl_run;
    cbn [is_null negb]; simpl_run.
  - left. eexists. split; [ reflexivity | discriminate ].
  - right.
    destruct (dir_create_user D createUserDto w1) as [[userId|e] w2];
      simpl_run; [ destruct (js_not_string userId || is_null userId) | ];
      simpl_run; eexists; reflexivity.
  - left. eexists. split; [ reflexivity | discriminate ].
Qed.

(** X4.  validateJwt asks the directory only about tokens that verified, once,
    and about the subject of the verified claim; a token that fails
    verification causes no directory round trip. *)
Theorem validateJwt_asks_after_verification (jwt : string) (w : W) :
  let opts := mkVerifyOptions (process_env D AuthService.JWT_ACCESS_SECRET) in
  let run := AuthService.validateJwt D jwt w in
  (exists e, log run = [EvVerify jwt opts (Thrown e)])
  \/ (exists claim r,
        log run = [EvVerify jwt opts (Returned claim);
                   EvIsUseridExist (sub claim) r]).
Proof.
  cbv zeta.
  unfold AuthService.validateJwt, AuthService.verifyAsync,
    AuthService.send_is_userid_exist.
  unfold_monad.
  destruct (jwt_verify D jwt _ w) as [[claim|e] w1]; simpl_run.
  - right.
    destruct (dir_is_userid_exist D (sub claim) w1) as [[[|]|e] w2];
      simpl_run; eexists; eexists; reflexivity.
  - left. eexists. reflexivity.
Qed.

(** X8.  The pair login issues is signed for the [_id] of the record the
    directory returned for the submitted name, never for anything the caller
    sent. *)
Theorem login_signs_for_the_record (loginUserDto : LoginUserDto) (w : W)
    (payload : JwtPayload) (opts : JwtSignOptions) (r : outcome string) :
  In (EvSign payload opts r) (log (AuthService.login D loginUserDto w)) ->
  exists u,
    fst (login_lookup D loginUserDto w) = Returned (Some u)
    /\ payload = mkJwtPayload (_id u).
Proof.
  unfold login_lookup.
  destruct (login_paths D loginUserDto w) as
    [v e Hv Hres | v Hv Hres | v u g Hv Hres ->]; simpl_run.
  1, 2: destruct Hv as [e' w1 Hfind | w1 Hfind | u' w1 Hfind Hm
                       | u' w1 digest w2 answer w3 Hfind Hm Hd Hup];
    simpl_run; cbn [In]; intros Hin;
    repeat match goal with H : _ \/ _ |- _ => destruct H as [H|H] end;
    try discriminate; contradiction.
  intros Hin. apply in_app_or in Hin as [Hin|Hin].
  - destruct Hv as [e' w1 Hfind | w1 Hfind | u' w1 Hfind Hm
                   | u' w1 digest w2 answer w3 Hfind Hm Hd Hup];
      simpl_run; cbn [In] in Hin;
      repeat match goal with H : _ \/ _ |- _ => destruct H as [H|H] end;
      try discriminate; contradiction.
  - apply generateJWT_signs_payload in Hin as (opts' & r' & Heq).
    injection Heq as -> _ _.
    destruct Hv as [e' w1 Hfind | w1 Hfind | u' w1 Hfind Hm
                   | u' w1 digest w2 [[|]|e'] w3 Hfind Hm Hd Hup];
      simpl_run; try discriminate Hres.
    injection Hres as ->. exists u. rewrite Hfind. split; reflexivity.
Qed.
End DirectoryExtras.

Section ReplyExtras.
Context {W : Type} (D : Deps W).

Lemma login_never_null (loginUserDto : LoginUserDto) (w : W) :
  res (AuthService.login D loginUserDto w) <> Returned JsNull.
Proof.
  destruct (login_paths D loginUserDto w) as
    [v e Hv Hres | v Hv Hres | v u g Hv Hres ->]; simpl_run;
    try discriminate.
  destruct (res (AuthService.generateJWT D _ _)); discriminate.
Qed.

Lemma refresh_never_null (refreshToken : string) (w : W) :
  res (AuthService.refresh D refreshToken w) <> Returned JsNull.
Proof.
  destruct (refresh_paths D refreshToken w) as
    [H | token e w1 _ _ _ | token claim w1 g _ _ _ ->]; simpl_run;
    try discriminate.
  destruct (res (AuthService.generateJWT D _ _)); discriminate.
Qed.

Lemma validateJwt_never_null (jwt : string) (w : W) :
  res (AuthService.validateJwt D jwt w) <> Returned JsNull.
Proof.
  destruct (validateJwt_absorbs D jwt w) as [[v Hv] _].
  unfold AuthService.validateJwt, AuthService.verifyAsync,
    AuthService.send_is_userid_exist in *.
  unfold_monad.
  destruct (jwt_verify D jwt _ w) as [[claim|e] w1]; simpl_run;
    try discriminate.
  destruct (dir_is_userid_exist D (sub claim) w1) as [[[|]|e] w2];
    simpl_run; discriminate.
Qed.

(** What register returns when it returns: [true] or one of the two business
    errors. *)
Lemma register_results (createUserDto : CreateUserDto) (w : W)
    (v : register_result) :
  res (AuthService.register D createUserDto w) = Returned v ->
  v = RegBool true \/ v = USER_EXISTS \/ v = USER_CREATE_FAILED.
Proof.
  unfold AuthService.register, AuthService.send_find_user,
    AuthService.send_create_user, USER_EXISTS, USER_CREATE_FAILED.
  unfold_monad.
  destruct (dir_find_user D _ w) as [[[u|]|e] w1]; simpl_run;
    cbn [is_null negb]; simpl_run; try discriminate.
  - intros H. injection H as <-. auto.
  - destruct (dir_create_user D createUserDto w1) as [[userId|e] w2];
      simpl_run; [ destruct (js_not_string userId || is_null userId) | ];
      simpl_run; try discriminate; intros H; injection H as <-; auto.
Qed.

(** The reply of a handler around a method that never returns [default]
    itself is [default] exactly when the message was rejected. *)
Lemma handled_default_iff_rejected {A} (s : Run W A) (default : A)
    (h : Run W A) :
  silent (log s) -> res s <> Returned default ->
  handled s (fun r => r) default h ->
  (exists v, res h = Returned v)
  /\ (res h = Returned default <-> count is_nack (log h) = 1)
  /\ (res h = Returned default <-> exists e, res s = Thrown e).
Proof.
  unfold handled. intros [Ha Hn] Hnd H.
  destruct (res s) as [v|e]; subst h; simpl_run;
    rewrite !count_app, Hn; cbn.
  - split; [ eauto | ]. split; split; intros H.
    + injection H as ->. contradiction.
    + lia.
    + injection H as ->. contradiction.
    + destruct H as [e He]. discriminate He.
  - split; [ eauto | ]. split; split; intros; eauto; lia.
Qed.

(** X5.  No handler throws, and its reply tells a rejected message from a
    business refusal: login, refresh and validate reply [null], and register
    replies [false], exactly when the service method threw and the message was
    rejected with [nack()]; a refusal is replied as [undefined] or as an error
    value. *)
Theorem default_reply_iff_rejected (w : W) :
  (forall context,
     let h := AuthController.register D context w in
     (exists v, res h = Returned v)
     /\ (res h = Returned (RegBool false) <-> count is_nack (log h) = 1)
     /\ (res h = Returned (RegBool false) <->
         exists e, res (AuthService.register D (message_data context) w)
                   = Thrown e))
  /\ (forall context,
        let h := AuthController.login D context w in
        (exists v, res h = Returned v)
        /\ (res h = Returned JsNull <-> count is_nack (log h) = 1)
        /\ (res h = Returned JsNull <->
            exists e, res (AuthService.login D (message_data context) w)
                      = Thrown e))
  /\ (forall context,
        let h := AuthController.refresh D context w in
        (exists v, res h = Returned v)
        /\ (res h = Returned JsNull <-> count is_nack (log h) = 1)
        /\ (res h = Returned JsNull <->
            exists e, res (AuthService.refresh D (message_data context) w)
                      = Thrown e))
  /\ (forall context,
        let h := AuthController.validate D context w in
        (exists v, res h = Returned v)
        /\ (res h = Returned JsNull <-> count is_nack (log h) = 1)
        /\ (res h = Returned JsNull <->
            exists e, res (AuthService.validateJwt D (message_data context) w)
                      = Thrown e)).
Proof.
  split; [ | split; [ | split ] ]; intros context; cbv zeta.
  - eapply handled_default_iff_rejected;
      [ apply register_silent | | apply register_handled ].
    intros H. apply register_results in H as [H|[H|H]]; discriminate H.
  - eapply handled_default_iff_rejected;
      [ apply login_silent | apply login_never_null | apply login_handled ].
  - eapply handled_default_iff_rejected;
      [ apply refresh_silent | apply refresh_never_null
      | apply refresh_handled ].
  - eapply handled_default_iff_rejected;
      [ apply validateJwt_silent | apply validateJwt_never_null
      | apply validate_handled ].
Qed.

(** X6.  The login and refresh endpoints applied to the reply of their
    handler: the status is 200 exactly when the service method returned a
    pair, which is then the response's data; the body says [isOk: false]
    (code 2004 or 2005) exactly when the service method threw; and a refusal
    is answered 400 or 401 with [isOk: true] and no code. *)
Theorem token_endpoints_over_the_handler (w : W) :
  (forall context,
     let s := res (AuthService.login D (message_data context) w) in
     let r := AppController.login
                (reply_of (AuthController.login D context w) JsNull) in
     (forall jwt,
        s = Returned (JsValue jwt) <->
        AppController.status r = 200%Z /\
        AppController.response_data (AppController.body r) = JsValue jwt)
     /\ (AppController.status r = 200%Z \/ AppController.status r = 400%Z)
     /\ ((exists e, s = Thrown e) <->
         AppController.isOk (AppController.body r) = false)
     /\ ((exists e, s = Thrown e) <->
         AppController.errorCode (AppController.body r) = Some 2004%Z)
     /\ (s = Returned JsUndefined <->
         AppController.status r = 400%Z /\
         AppController.isOk (AppController.body r) = true))
  /\ (forall context,
        let s := res (AuthService.refresh D (message_data context) w) in
        let r := AppController.refreshToken
                   (reply_of (AuthController.refresh D context w) JsNull) in
        (forall jwt,
           s = Returned (JsValue jwt) <->
           AppController.status r = 200%Z /\
           AppController.response_data (AppController.body r) = JsValue jwt)
        /\ (AppController.status r = 200%Z \/ AppController.status r = 401%Z)
        /\ ((exists e, s = Thrown e) <->
            AppController.isOk (AppController.body r) = false)
        /\ ((exists e, s = Thrown e) <->
            AppController.errorCode (AppController.body r) = Some 2005%Z)
        /\ (s = Returned JsUndefined <->
            AppController.status r = 401%Z /\
            AppController.isOk (AppController.body r) = true)).
Proof.
  split; intros context; cbv zeta.
  - pose proof (login_handled D context w) as Hh.
    pose proof (login_never_null (message_data context) w) as Hn.
    unfold handled in Hh. unfold reply_of.
    destruct (res (AuthService.login D (message_data context) w))
      as [[| |jwt]|e]; rewrite Hh; simpl_run;
      try contradiction; cbn;
      repeat split; intros; settle.
  - pose proof (refresh_handled D context w) as Hh.
    pose proof (refresh_never_null (message_data context) w) as Hn.
    unfold handled in Hh. unfold reply_of.
    destruct (res (AuthService.refresh D (message_data context) w))
      as [[| |jwt]|e]; rewrite Hh; simpl_run;
      try contradiction; cbn;
      repeat split; intros; settle.
Qed.
End ReplyExtras.

Section RegisterEndpoint.
Context {W : Type} (D : Deps W).

(** X7.  The register endpoint applied to the reply of the register handler:
    both business errors are answered with status 500 and their own code and
    text, and everything else with 201 and no body, including the reply
    [false] that follows a thrown failure of the service method. *)
Theorem register_endpoint_over_the_handler
    (context : RmqContext CreateUserDto) (w : W) :
  let s := res (AuthService.register D (message_data context) w) in
  let r := Api.register
             (reply_of (AuthController.register D context w) (RegBool false)) in
  (s = Returned USER_EXISTS <->
   r = Api.buildErrorReponse 2002 "User already exists")
  /\ (s = Returned USER_CREATE_FAILED <->
      r = Api.buildErrorReponse 2003 "User creation failed")
  /\ (s = Returned (RegBool true) \/ (exists e, s = Thrown e) <->
      r = Api.mkResponse 201 None)
  /\ (Api.status r = 500%Z \/ Api.status r = 201%Z).
Proof.
  cbv zeta.
  pose proof (register_handled D context w) as Hh.
  pose proof (register_results D (message_data context) w) as Hr.
  unfold handled in Hh. unfold reply_of.
  destruct (res (AuthService.register D (message_data context) w)) as [v|e];
    rewrite Hh; simpl_run.
  - destruct (Hr v eq_refl) as [Hv | [Hv | Hv]]; subst v;
      unfold USER_EXISTS, USER_CREATE_FAILED; cbn;
      repeat split; intros; settle.
  - unfold USER_EXISTS, USER_CREATE_FAILED; cbn;
      repeat split; intros; settle.
Qed.
End RegisterEndpoint.

(** * Properties of the HTTP endpoints *)

Module ApiProperties.
Import Api ApiPaths.

Lemma match_anchored_app (p1 p2 : list atom) (s : string) :
  match_anchored (p1 ++ p2) s = true <->
  exists s1 s2, s = s1 ++ s2 /\ match_anchored p1 s1 = true /\
                match_anchored p2 s2 = true.
Proof.
  revert s. induction p1 as [|a p1 IH]; intros s; cbn [app].
  - split.
    + intros H. exists "", s. repeat split; assumption.
    + intros ([|c s1] & s2 & -> & H1 & H2); [ exact H2 | discriminate H1 ].
  - destruct s as [|c s]; cbn [match_anchored].
    + split; [ discriminate | ].
      intros ([|c s1] & s2 & Heq & H1 & H2); discriminate.
    + rewrite andb_true_iff, IH. split.
      * intros (Ha & s1 & s2 & -> & H1 & H2).
        exists (String c s1), s2. cbn [match_anchored append].
        rewrite Ha, H1. repeat split; assumption.
      * intros ([|c' s1] & s2 & Heq & H1 & H2); [ discriminate H1 | ].
        cbn [append] in Heq. injection Heq as -> ->.
        cbn [match_anchored] in H1. apply andb_true_iff in H1 as [Ha H1].
        split; [ exact Ha | ]. exists s1, s2. repeat split; assumption.
Qed.

Lemma match_digits (n : nat) (s : string) :
  match_anchored (repeat Digit n) s = true <->
  String.length s = n /\ all_digits s = true.
Proof.
  revert s. induction n as [|n IH]; intros [|c s];
    cbn [repeat match_anchored String.length all_digits atom_matches].
  - split; auto.
  - split; [ discriminate | intros [H _]; discriminate H ].
  - split; [ discriminate | intros [H _]; discriminate H ].
  - rewrite !andb_true_iff, IH. split.
    + intros (Hc & Hl & Hs). auto.
    + intros (Hl & Hc & Hs). injection Hl as Hl. auto.
Qed.

Lemma match_lit (c : ascii) (s : string) :
  match_anchored [Lit c] s = true <-> s = String c "".
Proof.
  destruct s as [|x [|y s]]; cbn [match_anchored atom_matches].
  - split; discriminate.
  - rewrite andb_true_r. split.
    + intros H. apply Ascii.eqb_eq in H. now subst.
    + intros H. injection H as ->. apply Ascii.eqb_refl.
  - rewrite andb_false_r. split; discriminate.
Qed.

(** X9.  The birthday check accepts exactly the strings made of four digits,
    a dash, two digits, a dash and two digits, and nothing around them; the
    month and day numbers are not range-checked. *)
Theorem birthday_format_shape (s : string) :
  birthday_format s = true <->
  exists y m d,
    s = y ++ "-" ++ m ++ "-" ++ d
    /\ String.length y = 4 /\ String.length m = 2 /\ String.length d = 2
    /\ all_digits y = true /\ all_digits m = true /\ all_digits d = true.
Proof.
  unfold birthday_format, birthday_pattern.
  rewrite match_anchored_app. split.
  - intros (y & r1 & -> & Hy & H).
    apply match_anchored_app in H as (dash1 & r2 & -> & Hd1 & H).
    apply match_anchored_app in H as (m & r3 & -> & Hm & H).
    apply match_anchored_app in H as (dash2 & d & -> & Hd2 & Hd).
    apply match_lit in Hd1, Hd2. subst dash1 dash2.
    apply match_digits in Hy as [Hy1 Hy2], Hm as [Hm1 Hm2], Hd as [Hd1 Hd'].
    exists y, m, d. repeat split; assumption.
  - intros (y & m & d & -> & Hy & Hm & Hd & Hy' & Hm' & Hd').
    exists y, ("-" ++ m ++ "-" ++ d). split; [ reflexivity | ].
    split; [ now apply match_digits | ].
    apply match_anchored_app. exists "-", (m ++ "-" ++ d).
    split; [ reflexivity | ]. split; [ now apply match_lit | ].
    apply match_anchored_app. exists m, ("-" ++ d).
    split; [ reflexivity | ]. split; [ now apply match_digits | ].
    apply match_anchored_app. exists "-", d.
    split; [ reflexivity | ]. split; [ now apply match_lit | ].
    now apply match_digits.
Qed.

Lemma birthday_format_nonempty (s : string) :
  birthday_format s = true -> s <> "".
Proof. intros H ->. discriminate H. Qed.

(** *** Objects *)

Lemma obj_get_set_same {V} (k : string) (v : field V) (o : obj V) :
  obj_get k (obj_set k v o) = Some v.
Proof.
  induction o as [|[k' v'] o IH]; cbn [obj_set obj_get].
  - now rewrite String.eqb_refl.
  - destruct (String.eqb k' k) eqn:E; cbn [obj_get].
    + now rewrite String.eqb_refl.
    + now rewrite E.
Qed.

Lemma obj_get_set_other {V} (k k' : string) (v : field V) (o : obj V) :
  k <> k' -> obj_get k (obj_set k' v o) = obj_get k o.
Proof.
  intros Hne. induction o as [|[k1 v1] o IH]; cbn [obj_set obj_get].
  - destruct (String.eqb_spec k' k); [ congruence | reflexivity ].
  - destruct (String.eqb_spec k1 k'); cbn [obj_get].
    + subst k1. destruct (String.eqb_spec k' k); [ congruence | reflexivity ].
    + destruct (String.eqb k1 k); [ reflexivity | exact IH ].
Qed.

Lemma obj_get_absent {V} (k : string) (o : obj V) :
  ~ In k (keys o) -> obj_get k o = None.
Proof.
  induction o as [|[k' v'] o IH]; cbn [keys map fst In obj_get]; intros H.
  - reflexivity.
  - destruct (String.eqb_spec k' k).
    + exfalso. apply H. now left.
    + apply IH. intros Hin. apply H. now right.
Qed.

Lemma obj_get_spread {V} (k : string) (base src : obj V) :
  NoDup (keys src) ->
  obj_get k (spread base src)
  = match obj_get k src with
    | Some v => Some v
    | None => obj_get k base
    end.
Proof.
  unfold spread. revert base.
  induction src as [|[k1 v1] src IH]; intros base Hnd; cbn [fold_left obj_get].
  - reflexivity.
  - cbn [keys map fst] in Hnd. inversion Hnd as [|? ? Hnotin Hnd']; subst.
    cbn [fst snd]. rewrite (IH _ Hnd').
    destruct (String.eqb_spec k1 k) as [->|Hne].
    + rewrite (obj_get_absent _ _ Hnotin). apply obj_get_set_same.
    + destruct (obj_get k src); [ reflexivity | ].
      apply obj_get_set_other. congruence.
Qed.

Lemma keys_nonempty {V} (o : obj V) :
  Nat.eqb (length (keys o)) 0 = true <-> o = [].
Proof.
  destruct o; cbn; split; intros H; try reflexivity; discriminate H.
Qed.

Section Endpoints.
Context {V W : Type} (A : ApiDeps V W).

Lemma update_paths (sub : string) (dto : obj V) (w : W) :
  update_run A sub dto w (update A sub dto w).
Proof.
  unfold update, update_prepare, getHoroscopeZodiac.
  destruct (Nat.eqb (length (keys dto)) 0) eqn:Hk.
  - apply keys_nonempty in Hk. now apply update_nothing.
  - assert (Hne : dto <> []).
    { intros ->. discriminate Hk. }
    destruct (truthy A (obj_read "birthday" dto)) eqn:Ht.
    + destruct (birthday_format (to_string A (obj_read "birthday" dto)))
        eqn:Hf; cbn [negb].
      * unfold bind, interact, ret.
        destruct (get_horoscope_zodiac A (obj_read "birthday" dto) w)
          as [[result|e] w1] eqn:Hl; cbn [res world log app].
        -- destruct (update_profile A
                       (spread [("userId", FString sub)]
                          (obj_set "zodiac" (optional_zodiac result)
                             (obj_set "horoscope" (optional_horoscope result)
                                (spread [] dto)))) w1)
             as [answer w2] eqn:Hu.
           pose proof (update_with_signs A sub dto w result w1 answer w2
                         Hne Ht Hf Hl Hu) as H.
           destruct answer; exact H.
        -- now apply update_lookup_failed.
      * now apply update_bad_birthday.
    + unfold bind, interact, ret. cbn [res world log app].
      destruct (update_profile A (spread [("userId", FString sub)] dto) w)
        as [answer w2] eqn:Hu.
      pose proof (update_as_sent A sub dto w answer w2 Hne Ht Hu) as H.
      destruct answer; exact H.
Qed.

Lemma keys_set (k : string) (v : field V) (o : obj V) (k' : string) :
  In k' (keys (obj_set k v o)) <-> k' = k \/ In k' (keys o).
Proof.
  induction o as [|[k1 v1] o IH]; cbn [obj_set keys map fst In].
  - intuition.
  - destruct (String.eqb_spec k1 k) as [->|Hne]; cbn [keys map fst In].
    + intuition.
    + fold (keys (obj_set k v o)). fold (keys o). rewrite IH. intuition.
Qed.

Lemma NoDup_keys_set (k : string) (v : field V) (o : obj V) :
  NoDup (keys o) -> NoDup (keys (obj_set k v o)).
Proof.
  induction o as [|[k1 v1] o IH]; cbn [obj_set keys map fst]; intros H.
  - constructor; [ intros [] | constructor ].
  - inversion H as [|? ? Hnotin Hnd]; subst.
    destruct (String.eqb_spec k1 k) as [->|Hne]; cbn [keys map fst].
    + now constructor.
    + constructor; [ | now apply IH ].
      fold (keys (obj_set k v o)). rewrite keys_set.
      intros [->|Hin]; [ congruence | contradiction ].
Qed.

Lemma NoDup_keys_spread (base src : obj V) :
  NoDup (keys base) -> NoDup (keys (spread base src)).
Proof.
  unfold spread. revert base.
  induction src as [|[k v] src IH]; intros base H; cbn [fold_left fst snd].
  - exact H.
  - apply IH. now apply NoDup_keys_set.
Qed.

Lemma NoDup_keys_with_signs (result : option HoroscopeZodiac) (dto : obj V) :
  NoDup (keys (with_signs result dto)).
Proof.
  unfold with_signs. do 2 apply NoDup_keys_set.
  apply NoDup_keys_spread. constructor.
Qed.

Lemma obj_get_copy (k : string) (dto : obj V) :
  NoDup (keys dto) -> obj_get k (spread [] dto) = obj_get k dto.
Proof.
  intros H. rewrite (obj_get_spread _ _ _ H).
  now destruct (obj_get k dto).
Qed.

(** X11.  update answers without a word to the user service in two cases
    only: an empty body (200) and a truthy birthday that fails the format
    check (400, code 1003).  Nothing is looked up or written in either. *)
Theorem update_answers_without_asking (sub : string) (dto : obj V) (w : W) :
  (dto = [] ->
   update A sub dto w = mkRun (Returned (mkResponse 200 None)) w [])
  /\ (dto <> [] ->
      truthy A (obj_read "birthday" dto) = true ->
      birthday_format (to_string A (obj_read "birthday" dto)) = false ->
      update A sub dto w = mkRun (Returned (bad_birthday_format 1003)) w [])
  /\ (log (update A sub dto w) = [] ->
      dto = []
      \/ (truthy A (obj_read "birthday" dto) = true /\
          birthday_format (to_string A (obj_read "birthday" dto)) = false)).
Proof.
  destruct (update_paths sub dto w) as
    [He | Hne Ht Hf | e w1 Hne Ht Hf Hl | result w1 answer w2 Hne Ht Hf Hl Hu
    | answer w2 Hne Ht Hu]; cbn [log];
    repeat split; intros; try congruence; try discriminate; auto.
Qed.

(** X12.  The profile that update changes is the one of the token's subject,
    unless the body has a [userId] key of its own: the body is spread over
    [{userId: sub}], so its value wins. *)
Theorem update_names_the_subject (sub : string) (dto : obj V) (w : W)
    (payload : obj V) (answer : outcome bool) :
  NoDup (keys dto) ->
  In (EvUpdateProfile payload answer) (log (update A sub dto w)) ->
  obj_get "userId" payload
  = Some (match obj_get "userId" dto with
          | Some v => v
          | None => FString sub
          end).
Proof.
  intros Hnd.
  destruct (update_paths sub dto w) as
    [He | Hne Ht Hf | e w1 Hne Ht Hf Hl | result w1 answer' w2 Hne Ht Hf Hl Hu
    | answer' w2 Hne Ht Hu]; cbn [log In]; intros Hin;
    repeat match goal with H : _ \/ _ |- _ => destruct H as [H|H] end;
    try discriminate; try contradiction;
    injection Hin as <- <-; unfold update_payload.
  - rewrite (obj_get_spread _ _ _ (NoDup_keys_with_signs result dto)).
    unfold with_signs.
    rewrite !obj_get_set_other by discriminate.
    rewrite (obj_get_copy _ _ Hnd).
    destruct (obj_get "userId" dto); reflexivity.
  - rewrite (obj_get_spread _ _ _ Hnd).
    destruct (obj_get "userId" dto); reflexivity.
Qed.

(** X13.  With a truthy birthday, what reaches the user service as
    [horoscope] and [zodiac] is what it computed for that birthday, whatever
    the body said; when it computed nothing both are [undefined] and the
    update is sent all the same.  Every other key but [userId] is forwarded
    as the body had it. *)
Theorem update_derives_the_signs (sub : string) (dto : obj V) (w : W)
    (payload : obj V) (answer : outcome bool) :
  NoDup (keys dto) ->
  truthy A (obj_read "birthday" dto) = true ->
  In (EvUpdateProfile payload answer) (log (update A sub dto w)) ->
  exists result,
    fst (get_horoscope_zodiac A (obj_read "birthday" dto) w) = Returned result
    /\ obj_get "horoscope" payload = Some (optional_horoscope result)
    /\ obj_get "zodiac" payload = Some (optional_zodiac result)
    /\ forall k, k <> "userId" -> k <> "horoscope" -> k <> "zodiac" ->
                 obj_get k payload = obj_get k dto.
Proof.
  intros Hnd Htruthy.
  destruct (update_paths sub dto w) as
    [He | Hne Ht Hf | e w1 Hne Ht Hf Hl | result w1 answer' w2 Hne Ht Hf Hl Hu
    | answer' w2 Hne Ht Hu]; cbn [log In]; intros Hin;
    repeat match goal with H : _ \/ _ |- _ => destruct H as [H|H] end;
    try discriminate; try contradiction; try congruence.
  injection Hin as <- <-. exists result. rewrite Hl.
  unfold update_payload.
  split; [ reflexivity | ].
  rewrite !(obj_get_spread _ _ _ (NoDup_keys_with_signs result dto)).
  unfold with_signs. repeat split.
  - rewrite obj_get_set_other by discriminate.
    now rewrite obj_get_set_same.
  - now rewrite obj_get_set_same.
  - intros k H1 H2 H3.
    rewrite (obj_get_spread _ _ _ (NoDup_keys_with_signs result dto)).
    unfold with_signs.
    rewrite !obj_get_set_other by assumption.
    rewrite (obj_get_copy _ _ Hnd).
    destruct (obj_get k dto) eqn:E; [ reflexivity | ].
    cbn [obj_get]. destruct (String.eqb_spec "userId" k); congruence.
Qed.

(** X14.  A birthday that is present but falsy (the empty string) is not
    checked at all: no format check, no lookup of the signs, and every key of
    the body other than [userId] reaches the user service as sent, the empty
    birthday and a horoscope or zodiac of the caller's choosing included. *)
Theorem update_forwards_unchecked (sub : string) (dto : obj V) (w : W) :
  NoDup (keys dto) -> dto <> [] ->
  truthy A (obj_read "birthday" dto) = false ->
  exists answer,
    log (update A sub dto w)
    = [EvUpdateProfile (update_payload sub dto) answer]
    /\ forall k, k <> "userId" ->
                 obj_get k (update_payload sub dto) = obj_get k dto.
Proof.
  intros Hnd Hne Htruthy.
  destruct (update_paths sub dto w) as
    [He | Hne' Ht Hf | e w1 Hne' Ht Hf Hl
    | result w1 answer w2 Hne' Ht Hf Hl Hu | answer w2 Hne' Ht Hu];
    try congruence.
  exists answer. split; [ reflexivity | ].
  intros k Hk. unfold update_payload. rewrite (obj_get_spread _ _ _ Hnd).
  destruct (obj_get k dto); [ reflexivity | ].
  cbn [obj_get]. destruct (String.eqb_spec "userId" k); congruence.
Qed.

(** X15.  update answers 200 exactly when the body was empty or the user
    service confirmed the update, and 400 otherwise; when the user service
    throws, so does update. *)
Theorem update_status (sub : string) (dto : obj V) (w : W) :
  let run := update A sub dto w in
  (forall resp,
     res run = Returned resp ->
     (status resp = 200%Z <->
      dto = [] \/
      exists payload, In (EvUpdateProfile payload (Returned true)) (log run))
     /\ (status resp = 200%Z \/ status resp = 400%Z))
  /\ (forall e,
        res run = Thrown e <->
        (exists payload, In (EvUpdateProfile payload (Thrown e)) (log run))
        \/ In (EvGetHoroscopeZodiac (obj_read "birthday" dto) (Thrown e))
              (log run)).
Proof.
  cbv zeta.
  destruct (update_paths sub dto w) as
    [He | Hne Ht Hf | e w1 Hne Ht Hf Hl | result w1 answer w2 Hne Ht Hf Hl Hu
    | answer w2 Hne Ht Hu];
    try destruct answer as [[|]|e'];
    cbn [res log In update_reply]; (split; [ intros resp Hres | intros e0 ]);
    try discriminate Hres; try (injection Hres as <-; cbn [status]);
    repeat split; intros;
    repeat match goal with
      | H : exists _, _ |- _ => destruct H
      | H : _ \/ _ |- _ => destruct H
      | H : False |- _ => contradiction
      | H : Thrown _ = Thrown _ |- _ => injection H as H; subst
      | H : EvUpdateProfile _ _ = EvUpdateProfile _ _ |- _ =>
          injection H as ? ?; subst
      | H : EvGetHoroscopeZodiac _ _ = EvGetHoroscopeZodiac _ _ |- _ =>
          injection H as ?; subst
      end;
    try discriminate; try congruence; eauto 8.
Qed.

(** X10.  askHoroscopeZodiac consults the user service exactly for the
    birthdays that pass the format check.  A missing or empty birthday is
    answered 400 with code 1004, any other ill-formed one 400 with code 1005;
    for a well-formed one the answer follows the user service: 200 with its
    two signs, 500 with code 1006 when it has none, and its failure when it
    throws. *)
Theorem askHoroscopeZodiac_outcomes (birthday : option string) (w : W) :
  let run := askHoroscopeZodiac A birthday w in
  (log run <> [] <-> exists b, birthday = Some b /\ birthday_format b = true)
  /\ (birthday = None \/ birthday = Some "" <->
      res run = Returned (mkResponse 400
                            (Some (mkBody false (Some 1004%Z)
                                     (Some "Birthday is required") None))))
  /\ ((exists b, birthday = Some b /\ b <> "" /\ birthday_format b = false) <->
      res run = Returned (bad_birthday_format 1005))
  /\ (forall b,
        birthday = Some b -> birthday_format b = true ->
        let answer := fst (get_horoscope_zodiac A (FString b) w) in
        log run = [EvGetHoroscopeZodiac (FString b) answer]
        /\ match answer with
           | Returned (Some hz) =>
               res run = Returned (mkResponse 200
                                     (Some (mkBody true None None (Some hz))))
           | Returned None =>
               res run = Returned
                           (mkResponse 500
                              (Some (mkBody false (Some 1006%Z)
                                       (Some
                                          "Failed to get horoscope and/or zodiac")
                                       None)))
           | Thrown e => res run = Thrown e
           end).
Proof.
  cbv zeta. unfold askHoroscopeZodiac, getHoroscopeZodiac.
  destruct birthday as [[|c b]|].
  - cbn -[birthday_format]. repeat split; intros; settle;
      match goal with
      | H : Some _ = Some ?x, Hf : birthday_format ?x = true |- _ =>
          injection H as <-; discriminate Hf
      end.
  - destruct (birthday_format (String c b)) eqn:Hf; cbn [negb].
    + unfold bind, interact, ret.
      destruct (get_horoscope_zodiac A (FString (String c b)) w)
        as [[[[h z]|]|e] w1] eqn:Hl;
        cbn -[birthday_format]; repeat split; intros; settle;
        try (exists (String c b); split; [ reflexivity | exact Hf ]);
        try match goal with
          | H : Some _ = Some _ |- _ => injection H as <-
          end;
        try rewrite Hl; cbn [fst]; try discriminate; try congruence; auto.
    + cbn -[birthday_format]. repeat split; intros; settle;
        try (exists (String c b); repeat split; auto; discriminate);
        match goal with
        | H : Some _ = Some _ |- _ => injection H as <-; congruence
        end.
  - cbn -[birthday_format]. repeat split; intros; settle.
Qed.

(** X16.  getProfile answers 404 exactly when the profile is missing and 201
    otherwise, while [isOk] also requires the user record: a profile without
    its user is answered 201 with [isOk: false] and code 1000.  Data is sent
    only with [isOk: true]; it carries the user's username and never an empty
    list of interests. *)
Theorem getProfile_outcomes (sub : string) (w : W) :
  let run := getProfile A sub w in
  match fst (get_profile_and_user A sub w) with
  | Thrown e => res run = Thrown e
  | Returned answer =>
      exists resp b,
        res run = Returned resp /\ body resp = Some b
        /\ (status resp = 404%Z <-> pu_profile answer = None)
        /\ (status resp = 201%Z <-> pu_profile answer <> None)
        /\ (isOk b = true <->
            pu_profile answer <> None /\ pu_user answer <> None)
        /\ (isOk b = false <-> errorCode b = Some 1000%Z)
        /\ (forall p,
              data b = Some p ->
              isOk b = true /\ pf_interests p <> Some []
              /\ exists d u,
                   pu_profile answer = Some d /\ pu_user answer = Some u
                   /\ pf_username p = username u /\ pId p = pd_id d)
  end.
Proof.
  cbv zeta. unfold getProfile, bind, interact, ret.
  destruct (get_profile_and_user A sub w) as [[[[d|] [u|]]|e] w1];
    cbn [fst res world log app pu_profile pu_user is_null];
    [ | | | | reflexivity ];
    eexists; eexists; (split; [ reflexivity | ]); (split; [ reflexivity | ]);
    cbn [status isOk errorCode data];
    repeat split; intros; try discriminate; try congruence;
    try (destruct H; congruence).
  - injection H as <-. unfold sanitizeProfile. cbn [pf_interests].
    destruct (pd_interests d) as [[|x l]|]; cbn [pf_interests]; discriminate.
  - injection H as <-. exists d, u. unfold sanitizeProfile. cbn [pf_interests].
    destruct (pd_interests d) as [[|x l]|]; cbn; auto.
Qed.
End Endpoints.
End ApiProperties.

(** ** The further properties on concrete requests *)

Module ConcreteExtras.

Lemma refresh_with_trailing_text :
  res (AuthService.refresh Demo.deps "Bearer r-secret:7d:id-alice and more"
         Demo.w_alice)
  = Returned (JsValue (mkJwt "a-secret:3m:id-alice" "r-secret:7d:id-alice")).
Proof.
  exact (eq_trans
           (f_equal res
              (refresh_ignores_trailing_text Demo.deps "r-secret:7d:id-alice"
                 "and more" Demo.w_alice eq_refl))
           eq_refl).
Defined.

Lemma login_by_email_signs_for_the_id :
  exists u,
    fst (login_lookup Demo.deps (mkLoginUserDto "alice@x.com" "pw")
           Demo.w_alice) = Returned (Some u)
    /\ mkJwtPayload "id-alice" = mkJwtPayload (_id u).
Proof.
  apply (login_signs_for_the_record Demo.deps
           (mkLoginUserDto "alice@x.com" "pw") Demo.w_alice
           (mkJwtPayload "id-alice") (mkSignOptions "7d" (Some "r-secret"))
           (Returned "r-secret:7d:id-alice")).
  cbn. do 5 right. left. reflexivity.
Defined.

Import Api ApiPaths ApiProperties ApiDemo.

Lemma distinct_keys_with_birthday : NoDup (keys with_birthday).
Proof. repeat constructor; cbn; intuition discriminate. Defined.

Lemma distinct_keys_with_empty_birthday : NoDup (keys with_empty_birthday).
Proof. repeat constructor; cbn; intuition discriminate. Defined.

Lemma update_names_the_subject_of_the_token :
  obj_get "userId"
    (update_payload "id-alice" (with_signs aries with_birthday))
  = Some (FString "id-alice").
Proof.
  apply (update_names_the_subject ApiDemo.deps "id-alice" with_birthday
           ApiDemo.w0
           (update_payload "id-alice" (with_signs aries with_birthday))
           (Returned true) distinct_keys_with_birthday).
  cbn. right. left. reflexivity.
Defined.

Example update_takes_the_userId_of_the_body :
  log (update ApiDemo.deps "id-alice" with_userId ApiDemo.w0)
  = [EvUpdateProfile
       [("userId", FString "id-bob"); ("name", FString "Al")]
       (Returned true)].
Proof. reflexivity. Qed.

Lemma update_overrides_the_horoscope_of_the_body :
  exists result,
    fst (get_horoscope_zodiac ApiDemo.deps (FString "1990-04-01") ApiDemo.w0)
    = Returned result
    /\ obj_get "horoscope"
         (update_payload "id-alice" (with_signs aries with_birthday))
       = Some (optional_horoscope result)
    /\ obj_get "zodiac"
         (update_payload "id-alice" (with_signs aries with_birthday))
       = Some (optional_zodiac result)
    /\ forall k, k <> "userId" -> k <> "horoscope" -> k <> "zodiac" ->
                 obj_get k
                   (update_payload "id-alice" (with_signs aries with_birthday))
                 = obj_get k with_birthday.
Proof.
  apply (update_derives_the_signs ApiDemo.deps "id-alice" with_birthday
           ApiDemo.w0
           (update_payload "id-alice" (with_signs aries with_birthday))
           (Returned true) distinct_keys_with_birthday eq_refl).
  cbn. right. left. reflexivity.
Defined.

Lemma update_forwards_an_empty_birthday :
  exists answer,
    log (update ApiDemo.deps "id-alice" with_empty_birthday ApiDemo.w0)
    = [EvUpdateProfile (update_payload "id-alice" with_empty_birthday) answer]
    /\ forall k, k <> "userId" ->
                 obj_get k (update_payload "id-alice" with_empty_birthday)
                 = obj_get k with_empty_birthday.
Proof.
  apply (update_forwards_unchecked ApiDemo.deps "id-alice"
           with_empty_birthday ApiDemo.w0
           distinct_keys_with_empty_birthday).
  - discriminate.
  - reflexivity.
Defined.

Example update_rejects_a_month_name :
  update ApiDemo.deps "id-alice" [("birthday", FString "1990-Apr-01")]
    ApiDemo.w0
  = mkRun (Returned (bad_birthday_format 1003)) ApiDemo.w0 [].
Proof. reflexivity. Qed.

Example format_accepts_month_13 : birthday_format "2023-13-45" = true.
Proof. reflexivity. Qed.

Example ask_without_birthday :
  res (askHoroscopeZodiac ApiDemo.deps None ApiDemo.w0)
  = Returned (mkResponse 400
                (Some (mkBody false (Some 1004%Z)
                         (Some "Birthday is required") None))).
Proof. reflexivity. Qed.
End ConcreteExtras.
